(** * AI payroll script: a shallow embedding of [importlogging.py]

    The script has two classes.  [AIPayroll] holds a sequence of entities,
    derives a pay amount for each one and asks the gateway to credit it;
    [APIUnifier] is the gateway, a static string-keyed dispatcher.

    Python values, exceptions, dictionaries, name resolution in [except]
    clauses and the [logging] calls are modelled explicitly, so that the
    functions below can be read side by side with the source. *)

From Stdlib Require Import ZArith Bool List Lia.
From Stdlib Require Import Floats.SpecFloat.
From Stdlib Require Import DecimalString.
From stdpp Require Import base gmap strings list.

Local Open Scope Z_scope.

(** ** Python values *)

Module Py.

(** IEEE 754 binary64, the representation of a Python [float]. *)
Definition prec : Z := 53.
Definition emax : Z := 1024.

(** The values the script handles: [None], [str], [int] and [float].
    A usage method may return other objects (a complex number, a
    fraction, a list); they are outside this development, whose
    statements about a usage value are about these four kinds. *)
Inductive PyVal : Type :=
| VNone
| VStr (s : string)
| VInt (z : Z)
| VFloat (f : spec_float).

(** Exception classes: the builtins that can occur here, and the one the
    module defines, [class BankAPIUnifierException(Exception)]. *)
Inductive ExnClass : Type :=
| BaseException
| Exception
| TypeError
| ValueError
| LookupError
| KeyError
| NameError
| ArithmeticError
| OverflowError
| BankAPIUnifierException.

#[global] Instance ExnClass_eq_dec : EqDecision ExnClass.
Proof. solve_decision. Defined.

(** Method resolution order of each class (the class and its bases). *)
Definition mro (c : ExnClass) : list ExnClass :=
  match c with
  | BaseException => [BaseException]
  | Exception => [Exception; BaseException]
  | TypeError => [TypeError; Exception; BaseException]
| ValueError => [ValueError; Exception; BaseException]
  | LookupError => [LookupError; Exception; BaseException]
  | KeyError => [KeyError; LookupError; Exception; BaseException]
  | NameError => [NameError; Exception; BaseException]
  | ArithmeticError => [ArithmeticError; Exception; BaseException]
  | OverflowError =>
      [OverflowError; ArithmeticError; Exception; BaseException]
  | BankAPIUnifierException =>
      [BankAPIUnifierException; Exception; BaseException]
  end.

Definition issubclass (c d : ExnClass) : bool :=
  bool_decide (d ∈ mro c).

(** An exception instance: its class and what [str(e)] yields. *)
Record exn : Type := mk_exn { exn_class : ExnClass; exn_detail : string }.

Definition isinstance (e : exn) (c : ExnClass) : bool :=
  issubclass (exn_class e) c.

(** Outcome of evaluating an expression or a call. *)
Inductive result (A : Type) : Type :=
| Ok (a : A)
| Raise (e : exn).
Arguments Ok {A} a.
Arguments Raise {A} e.

Definition is_ok {A} (r : result A) : bool :=
  match r with Ok _ => true | Raise _ => false end.

(** *** Numbers *)

(** The literal [1.0]. *)
Definition float_one : spec_float := S754_finite false 4503599627370496 (-52).
Definition float_zero : spec_float := S754_zero false.

(** [float(z)] for an [int]: round to nearest even; a value beyond the
    binary64 range raises [OverflowError]. *)
Definition float_of_int (z : Z) : result spec_float :=
  match binary_normalize prec emax z 0 false with
  | S754_infinity _ =>
      Raise (mk_exn OverflowError "int too large to convert to float")
  | f => Ok f
  end.

(** [v * f] where the right operand is a [float], for the four kinds of
    left operand above. *)
Definition mul_float (v : PyVal) (f : spec_float) : result PyVal :=
  match v with
  | VNone =>
      Raise (mk_exn TypeError
               "unsupported operand type(s) for *: 'NoneType' and 'float'")
  | VStr _ =>
      Raise (mk_exn TypeError
               "can't multiply sequence by non-int of type 'float'")
  | VInt z =>
      match float_of_int z with
      | Ok fz => Ok (VFloat (SFmul prec emax fz f))
      | Raise e => Raise e
      end
  | VFloat x => Ok (VFloat (SFmul prec emax x f))
  end.

(** The float into which a positive [int] below 2^53 converts: the
    mantissa is shifted up to 53 bits, nothing is rounded away. *)
Definition float_of_small (p : positive) : spec_float :=
  match 53 - Z.pos (digits2_pos p) with
  | Z.pos k => S754_finite false (Pos.iter xO p k) (Z.neg k)
  | _ => S754_finite false p 0
  end.

(** The float [f] is exactly the integer [z]. *)
Definition float_is_int (f : spec_float) (z : Z) : Prop :=
  match f with
  | S754_zero _ => z = 0
  | S754_finite s m e =>
      (0 <= e ∧ cond_Zopp s (Z.pos m) * 2 ^ e = z)
      ∨ (e < 0 ∧ cond_Zopp s (Z.pos m) = z * 2 ^ (- e))
  | _ => False
  end.

(** A number that [* 1.0] accepts: a float of the runtime (a well-formed
    binary64), or an [int] whose magnitude is below the point where the
    conversion to a float overflows. *)
Definition converts_to_float (v : PyVal) : bool :=
  match v with
  | VInt z => Z.abs z <? 2 ^ 1024 - 2 ^ 970
  | VFloat f => valid_binary prec emax f
  | _ => false
  end.

(** [v >= 0] on numbers; [false] on what is not a number and on NaN. *)
Definition nonneg_number (v : PyVal) : bool :=
  match v with
  | VInt z => 0 <=? z
  | VFloat f => SFleb float_zero f
  | _ => false
  end.

(** [v == s] for a string literal [s]: only an equal [str] compares
    equal; [None] and numbers never do. *)
Definition eq_str (v : PyVal) (s : string) : bool :=
  match v with
  | VStr t => String.eqb t s
  | _ => false
  end.

(** *** Formatting *)

(** [repr] of a float (the shortest round-tripping decimal) belongs to
    the Python runtime; it is a parameter of the development. *)
Class FloatRepr := float_repr : spec_float → string.

(** The text of a value, for the values that have one (see [prints]). *)
Definition str `{FloatRepr} (v : PyVal) : string :=
  match v with
  | VNone => "None"
  | VStr s => s
  | VInt z => NilZero.string_of_int (Z.to_int z)
  | VFloat f => float_repr f
  end.

(** The runtime refuses to convert an [int] of more than 4300 decimal
    digits to a string ([sys.int_info.default_max_str_digits]): such a
    value has a magnitude of [int_str_limit] or more. *)
Definition int_str_limit : Z := 10 ^ 4300.

Definition prints (v : PyVal) : bool :=
  match v with
  | VInt z => Z.abs z <? int_str_limit
  | _ => true
  end.

(** What an f-string substitutes for [{v}]: the text of [v], or
    [ValueError] for an [int] that is too long. *)
Definition format `{FloatRepr} (v : PyVal) : result string :=
  if prints v then Ok (str v)
  else Raise (mk_exn ValueError
                "Exceeds the limit (4300 digits) for integer string conversion; use sys.set_int_max_str_digits() to increase the limit").

(** *** Dictionaries *)

Abbreviation dict := (gmap string PyVal).

(** [d[k]]: a missing key raises [KeyError], whose [str] is the quoted
    key. *)
Definition subscript (d : dict) (k : string) : result PyVal :=
  match d !! k with
  | Some v => Ok v
  | None => Raise (mk_exn KeyError ("'" +:+ k +:+ "'"))
  end.

End Py.
Import Py.

(** ** Name resolution *)

Module Names.

(** What a global name is bound to: an exception class, or some other
    object (a module, a function, a class that is not an exception). *)
Inductive binding : Type :=
| BClass (c : ExnClass)
| BObject.

Abbreviation namespace := (gmap string binding).

Definition builtins : namespace :=
  list_to_map
    [ ("BaseException", BClass BaseException);
      ("Exception", BClass Exception);
      ("TypeError", BClass TypeError);
    ("ValueError", BClass ValueError);
      ("LookupError", BClass LookupError);
      ("KeyError", BClass KeyError);
      ("NameError", BClass NameError);
      ("ArithmeticError", BClass ArithmeticError);
      ("OverflowError", BClass OverflowError) ].

(** A global name is looked up in the module's globals, then in the
    builtins. *)
Definition resolve (globals : namespace) (name : string) : option binding :=
  match globals !! name with
  | Some b => Some b
  | None => builtins !! name
  end.

(** The names [importlogging.py] binds at module level: the import, and
    the three [class] statements. *)
Definition module_globals : namespace :=
  list_to_map
    [ ("logging", BObject);
      ("AIPayroll", BObject);
      ("BankAPIUnifierException", BClass BankAPIUnifierException);
      ("APIUnifier", BObject) ].

End Names.
Import Names.

(** ** Computations: state and exceptions *)

Module Comp.

(** A computation over a state [S] ends with a value or a raised
    exception, and a final state. *)
Definition M (S A : Type) : Type := S → result A * S.

Definition ret {S A} (a : A) : M S A := fun s => (Ok a, s).

Definition raise {S A} (e : exn) : M S A := fun s => (Raise e, s).

Definition bind {S A B} (m : M S A) (k : A → M S B) : M S B :=
  fun s =>
    match m s with
    | (Ok a, s') => k a s'
    | (Raise e, s') => (Raise e, s')
    end.

(** A pure evaluation, in any state. *)
Definition lift {S A} (r : result A) : M S A := fun s => (r, s).

Definition gets {S A} (f : S → A) : M S A := fun s => (Ok (f s), s).

Definition modify {S} (f : S → S) : M S unit := fun s => (Ok tt, f s).

(** [for x in l: body(x)]: the first exception ends the loop. *)
Fixpoint for_each {S A} (l : list A) (body : A → M S unit) : M S unit :=
  match l with
  | [] => ret tt
  | x :: l' => bind (body x) (fun _ => for_each l' body)
  end.

(** [try: body / except cls as e: handler(e)].  The expression [cls] is
    evaluated only when [body] raised; an unbound name raises
    [NameError] from there, and a binding that is not an exception class
    raises [TypeError]. *)
Definition try_except {S A} (globals : namespace)
    (body : M S A) (cls : string) (handler : exn → M S A) : M S A :=
  fun s =>
    match body s with
    | (Ok a, s') => (Ok a, s')
    | (Raise e, s') =>
        match resolve globals cls with
        | None =>
            (Raise (mk_exn NameError
                      ("name '" +:+ cls +:+ "' is not defined")), s')
        | Some (BClass c) =>
            if isinstance e c then handler e s' else (Raise e, s')
        | Some BObject =>
            (Raise (mk_exn TypeError
                      "catching classes that do not inherit from BaseException is not allowed"),
             s')
        end
    end.

End Comp.
Import Comp.

Declare Scope comp_scope.
Delimit Scope comp_scope with comp.
Notation "'let*' x ':=' m 'in' k" := (bind m (fun x => k))
  (at level 10, x pattern, m at level 100, k at level 200) : comp_scope.
Local Open Scope comp_scope.

(** ** The gateway: [class APIUnifier] *)

Module APIUnifier.
Section Gateway.
Context `{FloatRepr}.
(** The state of whatever lies behind the gateway. *)
Context {G : Type}.

(** [@staticmethod def callAPI(service, data)].  Both [pass] and
    falling off the end of the function return [None]. *)
Definition callAPI (service : string) (data : dict) : M G PyVal :=
  if String.eqb service "bank_api" then
    let* action := lift (subscript data "action") in
    if eq_str action "credit" then
      ret VNone
    else
      let* shown := lift (subscript data "action") in
      let* text := lift (format shown) in
      raise (mk_exn BankAPIUnifierException
               ("Unrecognized action: " +:+ text))
  else
    ret VNone.
End Gateway.
End APIUnifier.

(** ** The [logging] module *)

Module Logging.

Inductive Level : Type := INFO | ERROR.

(** One call of [logging.info] or [logging.error]: level and message. *)
Definition LogRecord : Type := Level * string.

End Logging.
Import Logging.

(** ** The processor: [class AIPayroll] *)

(** An entity is an object with a [unique_id] attribute; its other
    attributes are whatever the usage computation reads. *)
Record Entity : Type := mk_entity {
  unique_id : PyVal;
  attrs : dict
}.

Module AIPayroll.

(** An instance: [self.ai_entities]. *)
Record t : Type := mk { ai_entities : list Entity }.

(** [def __init__(self, ai_entities)]. *)
Definition __init__ (ai_entities : list Entity) : t :=
  {| ai_entities := ai_entities |}.

(** [def calculate_data_usage_in_bits(self, ai_entity)]: the body is
    [pass], so the method as written returns [None]. *)
Definition calculate_data_usage_in_bits (self : t) (ai_entity : Entity)
  : result PyVal :=
  Ok VNone.

(** A credit request as the gateway receives it: service and payload. *)
Definition Request : Type := string * dict.

(** The program state: the processor instance, the records handed to
    [logging], the requests issued to the gateway so far, and the state
    behind the gateway. *)
Record World (G : Type) : Type := mk_world {
  self_of : t;
  log : list LogRecord;
  issued : list Request;
  bank : G
}.
Arguments mk_world {G} _ _ _ _.
Arguments self_of {G} _.
Arguments log {G} _.
Arguments issued {G} _.
Arguments bank {G} _.

Section Processor.
Context `{FloatRepr}.
Context {G : Type}.

(** The method bound to [self.calculate_data_usage_in_bits]: the one
    above, or a subclass's override. *)
Variable usage : t → Entity → result PyVal.
(** The function bound to [APIUnifier.callAPI] when the loop runs. *)
Variable gateway : string → dict → M G PyVal.
(** The module's global names when the loop runs. *)
Variable globals : namespace.

(** [def calculate_pay(self, ai_entity)]. *)
Definition calculate_pay_with (self : t) (ai_entity : Entity)
  : result PyVal :=
  match usage self ai_entity with
  | Ok data_usage_bits => mul_float data_usage_bits float_one
  | Raise e => Raise e
  end.

(** [logging.info(msg)] and [logging.error(msg)]. *)
Definition logging_info (msg : string) : M (World G) unit :=
  modify (fun w =>
    mk_world (self_of w) (log w ++ [(INFO, msg)]) (issued w) (bank w)).

Definition logging_error (msg : string) : M (World G) unit :=
  modify (fun w =>
    mk_world (self_of w) (log w ++ [(ERROR, msg)]) (issued w) (bank w)).

(** The call [APIUnifier.callAPI(service, data)]: the request is
    recorded as issued, then the gateway runs on its own state. *)
Definition call_gateway (service : string) (data : dict)
  : M (World G) PyVal :=
  fun w =>
    let '(r, g) := gateway service data (bank w) in
    (r, mk_world (self_of w) (log w)
          (issued w ++ [(service, data)]) g).

(** The dictionary display of the credit request. *)
Definition credit_payload (ai_entity : Entity) (pay : PyVal) : dict :=
  <["amount" := pay]>
    (<["unique_id" := unique_id ai_entity]>
       (<["action" := VStr "credit"]> ∅)).

Definition info_message (pay : PyVal) (ai_entity : Entity) : string :=
  "Successfully credited $" +:+ str pay +:+ " to AI entity "
    +:+ str (unique_id ai_entity) +:+ ".".

Definition error_message (ai_entity : Entity) (e : exn) : string :=
  "Failed to process payroll for AI entity "
    +:+ str (unique_id ai_entity) +:+ ": " +:+ exn_detail e.

(** The two f-strings: the fields are formatted from left to right, and
    the first that cannot be formatted raises. *)
Definition info_fstring (pay : PyVal) (ai_entity : Entity) : result string :=
  match format pay with
  | Ok shown_pay =>
      match format (unique_id ai_entity) with
      | Ok shown_id =>
          Ok ("Successfully credited $" +:+ shown_pay +:+ " to AI entity "
                +:+ shown_id +:+ ".")
      | Raise ex => Raise ex
      end
  | Raise ex => Raise ex
  end.

Definition error_fstring (ai_entity : Entity) (e : exn) : result string :=
  match format (unique_id ai_entity) with
  | Ok shown_id =>
      Ok ("Failed to process payroll for AI entity "
            +:+ shown_id +:+ ": " +:+ exn_detail e)
  | Raise ex => Raise ex
  end.

(** The body of the [for] loop. *)
Definition process_entity (self : t) (ai_entity : Entity)
  : M (World G) unit :=
  let* pay := lift (calculate_pay_with self ai_entity) in
  try_except globals
    (let* _ := call_gateway "bank_api" (credit_payload ai_entity pay) in
     let* msg := lift (info_fstring pay ai_entity) in
     logging_info msg)
    "APIUnifierException"
    (fun e =>
       let* msg := lift (error_fstring ai_entity e) in
       logging_error msg).

(** [def process_payroll(self)]. *)
Definition process_payroll_with : M (World G) PyVal :=
  let* self := gets self_of in
  let* _ := for_each (ai_entities self) (process_entity self) in
  ret VNone.

(** For stating what a run leaves behind: the pay of an entity on
    which [calculate_pay] returns, the request carrying it, and the
    record of its success. *)
Definition pay_of (self : t) (ai_entity : Entity) : PyVal :=
  match calculate_pay_with self ai_entity with
  | Ok pay => pay
  | Raise _ => VNone
  end.

Definition request_for (self : t) (ai_entity : Entity) : Request :=
  ("bank_api", credit_payload ai_entity (pay_of self ai_entity)).

Definition info_record (self : t) (ai_entity : Entity) : LogRecord :=
  (INFO, info_message (pay_of self ai_entity) ai_entity).

(** The state right after the request for [e] went out, and a state
    with one more log record. *)
Definition after_call (w : World G) (e : Entity) (pay : PyVal) (g : G)
  : World G :=
  mk_world (self_of w) (log w)
    (issued w ++ [("bank_api", credit_payload e pay)]) g.

Definition add_log (w : World G) (r : LogRecord) : World G :=
  mk_world (self_of w) (log w ++ [r]) (issued w) (bank w).

(** What the [except] clause makes of an exception [ex] raised in the
    [try] block for entity [e], in the state [w]. *)
Definition handled (e : Entity) (ex : exn) (w : World G)
  : result unit * World G :=
  match resolve globals "APIUnifierException" with
  | None =>
      (Raise (mk_exn NameError "name 'APIUnifierException' is not defined"), w)
  | Some (BClass c) =>
      if isinstance ex c then
        match error_fstring e ex with
        | Ok msg => (Ok tt, add_log w (ERROR, msg))
        | Raise ex' => (Raise ex', w)
        end
      else (Raise ex, w)
  | Some BObject =>
      (Raise (mk_exn TypeError
                "catching classes that do not inherit from BaseException is not allowed"),
       w)
  end.

(** The four ways one iteration of the loop can end: [calculate_pay]
    raised; the request succeeded and was reported; the request failed
    and the handler reported it; the request went out and an exception
    left the [try] statement. *)
Inductive entity_step (self : t) (e : Entity) (w : World G)
  : result unit → World G → Prop :=
| step_unpaid ex :
    calculate_pay_with self e = Raise ex →
    entity_step self e w (Raise ex) w
| step_credited pay v g :
    calculate_pay_with self e = Ok pay →
    gateway "bank_api" (credit_payload e pay) (bank w) = (Ok v, g) →
    prints (unique_id e) = true →
    entity_step self e w (Ok tt)
      (add_log (after_call w e pay g) (INFO, info_message pay e))
| step_reported pay ex g :
    calculate_pay_with self e = Ok pay →
    gateway "bank_api" (credit_payload e pay) (bank w) = (Raise ex, g) →
    entity_step self e w (Ok tt)
      (add_log (after_call w e pay g) (ERROR, error_message e ex))
| step_escaped pay r ex' g :
    calculate_pay_with self e = Ok pay →
    gateway "bank_api" (credit_payload e pay) (bank w) = (r, g) →
    entity_step self e w (Raise ex') (after_call w e pay g).

End Processor.

(** The script as written: the base-class usage method, the gateway of
    the module, and the module's own globals. *)
Definition calculate_pay : t → Entity → result PyVal :=
  calculate_pay_with calculate_data_usage_in_bits.

Definition process_payroll `{FloatRepr} {G} : M (World G) PyVal :=
  process_payroll_with calculate_data_usage_in_bits
    APIUnifier.callAPI module_globals.

(** The state in which a freshly constructed processor starts. *)
Definition start {G} (ai_entities : list Entity) (g : G) : World G :=
  mk_world (__init__ ai_entities) [] [] g.

End AIPayroll.

Import AIPayroll.

(** ** Fixtures for the scenarios *)

Module Scenario.

(** A stand-in for the runtime's float [repr], exact on integral values
    below 10^16 (which print as digits followed by [.0]). *)
Definition repr_integral : FloatRepr := fun f =>
  match f with
  | S754_zero s => if s then "-0.0" else "0.0"
  | S754_infinity s => if s then "-inf" else "inf"
  | S754_nan => "nan"
  | S754_finite s m e =>
      let n := if 0 <=? e then Z.pos m * 2 ^ e else Z.pos m / 2 ^ (- e) in
      (if s then "-" else "")
        +:+ NilZero.string_of_int (Z.to_int n) +:+ ".0"
  end.

(** A subclass's usage method: the entity's [data_usage_bits] attribute,
    [None] when it has none. *)
Definition metered_usage (self : AIPayroll.t) (ai_entity : Entity)
  : result PyVal :=
  Ok (default VNone (attrs ai_entity !! "data_usage_bits")).

Definition ai_1 : Entity :=
  mk_entity (VStr "ai-1") {[ "data_usage_bits" := VInt 100 ]}.

Definition ai_2 : Entity :=
  mk_entity (VStr "ai-2") {[ "data_usage_bits" := VInt 0 ]}.

(** A gateway that submits every request as a debit, which the module's
    dispatcher rejects. *)
Definition debit_gateway {G} (service : string) (data : dict) : M G PyVal :=
  @APIUnifier.callAPI repr_integral G service
    (<["action" := VStr "debit"]> data).

(** The script with its handler clause naming the class the module
    defines. *)
Definition repaired_globals : namespace :=
  <["APIUnifierException" := BClass BankAPIUnifierException]> module_globals.

End Scenario.
Import Scenario.

(** ** Reading a run *)

Module Trace.

Section Prefix.
Variable usage : AIPayroll.t → Entity → result PyVal.
Variable self : AIPayroll.t.

(** How far the loop gets when no request fails: the longest prefix of
    the collection on which [calculate_pay] returns, and the exception
    of the entity that ends it, if any. *)
Fixpoint paid_prefix (l : list Entity) : list Entity * option exn :=
  match l with
  | [] => ([], None)
  | e :: l' =>
      match calculate_pay_with usage self e with
      | Ok _ => let '(paid, failure) := paid_prefix l' in (e :: paid, failure)
      | Raise ex => ([], Some ex)
      end
  end.

End Prefix.

(** The outcome of a loop that stopped with [failure]. *)
Definition outcome_of (failure : option exn) : result unit :=
  match failure with
  | None => Ok tt
  | Some ex => Raise ex
  end.

(** An entity that owes data, and one without a usage attribute. *)
Definition ai_3 : Entity :=
  mk_entity (VStr "ai-3") {[ "data_usage_bits" := VInt (-5) ]}.

Definition ai_4 : Entity := mk_entity (VStr "ai-4") ∅.

(** An entity whose id is an [int] of 4301 digits. *)
Definition ai_long : Entity :=
  mk_entity (VInt (10 ^ 4300)) {[ "data_usage_bits" := VInt 1 ]}.

End Trace.
Import Trace.

(** * Pay *)

(** ** Binary64 facts: multiplying by [1.0], converting small integers *)

Lemma digits_shift52 (m : positive) :
  Zdigits2 (Z.pos (m * 4503599627370496)) = Z.pos (digits2_pos m) + 52.
Proof.
  rewrite Pos.mul_comm. cbv [Pos.mul]. cbn [Zdigits2 digits2_pos]. lia.
Qed.

Lemma shr_shift52 (m : positive) (e : Z) :
  shr (Build_shr_record (Z.pos (m * 4503599627370496)) false false) e 52 =
    (Build_shr_record (Z.pos m) false false, e + 52).
Proof.
  rewrite Pos.mul_comm. reflexivity.
Qed.

Lemma SFmul_one_r (x : spec_float) :
  valid_binary prec emax x = true → SFmul prec emax x float_one = x.
Proof.
  destruct x as [s|s| |s m e]; cbn [SFmul float_one valid_binary];
    rewrite ?xorb_false_r; try reflexivity.
  unfold bounded, canonical_mantissa. intros Hb.
  apply andb_prop in Hb as [Hc He].
  apply Z.eqb_eq in Hc.
  unfold binary_round_aux, shr_fexp.
  rewrite digits_shift52.
  replace (Z.pos (digits2_pos m) + 52 + (e + -52)) with (Z.pos (digits2_pos m) + e) by lia.
  rewrite Hc.
  replace (e - (e + -52)) with 52 by lia.
  cbn [shr_record_of_loc]. rewrite shr_shift52.
  cbn [shr_m loc_of_shr_record round_nearest_even shr_record_of_loc Zdigits2].
  replace (e + -52 + 52) with e by lia.
  rewrite Hc, Z.sub_diag. cbn [shr shr_m].
  by rewrite He.
Qed.

Lemma digits2_pos_size (p : positive) : digits2_pos p = Pos.size p.
Proof. induction p; cbn; congruence. Qed.

Lemma digits2_pos_iter_xO (p k : positive) :
  Z.pos (digits2_pos (Pos.iter xO p k)) = Z.pos (digits2_pos p) + Z.pos k.
Proof.
  induction k using Pos.peano_ind.
  - cbn. lia.
  - rewrite Pos.iter_succ. cbn [digits2_pos]. lia.
Qed.

Lemma iter_xO_value (p k : positive) :
  Z.pos (Pos.iter xO p k) = Z.pos p * 2 ^ Z.pos k.
Proof.
  induction k using Pos.peano_ind.
  - cbn. lia.
  - rewrite Pos.iter_succ, Pos2Z.inj_succ, Z.pow_succ_r by lia. lia.
Qed.

Lemma digits2_pos_bound (p : positive) :
  Z.pos p < 2 ^ 53 → Z.pos (digits2_pos p) <= 53.
Proof.
  intros Hp. rewrite digits2_pos_size.
  pose proof (Pos.size_le p) as Hle.
  destruct (Z.le_gt_cases (Z.pos (Pos.size p)) 53) as [|Hgt]; [done|].
  exfalso.
  assert (2 ^ 54 <= 2 ^ Z.pos (Pos.size p)) by (apply Z.pow_le_mono_r; lia).
  assert (Z.pos (2 ^ Pos.size p) = 2 ^ Z.pos (Pos.size p)) as Hpow
    by (rewrite Pos2Z.inj_pow; reflexivity).
  assert (Z.pos (2 ^ Pos.size p) <= Z.pos p~0) as Hz by exact Hle.
  rewrite Hpow in Hz. change (2^54) with 18014398509481984 in *.
  change (2^53) with 9007199254740992 in *. lia.
Qed.

Lemma binary_round_aux_canonical (s : bool) (m : positive) (e : Z) :
  bounded prec emax m e = true →
  binary_round_aux prec emax s (Z.pos m) e loc_Exact = S754_finite s m e.
Proof.
  unfold bounded, canonical_mantissa. intros Hb.
  apply andb_prop in Hb as [Hc He]. apply Z.eqb_eq in Hc.
  unfold binary_round_aux, shr_fexp. cbn [Zdigits2].
  rewrite Hc, Z.sub_diag.
  cbn [shr_record_of_loc shr shr_m loc_of_shr_record round_nearest_even Zdigits2].
  rewrite Hc, Z.sub_diag. cbn [shr_record_of_loc shr shr_m].
  rewrite He. reflexivity.
Qed.

Lemma float_of_small_bounded (p : positive) :
  Z.pos p < 2 ^ 53 →
  valid_binary prec emax (float_of_small p) = true.
Proof.
  intros Hp. apply digits2_pos_bound in Hp.
  unfold float_of_small.
  destruct (53 - Z.pos (digits2_pos p)) as [|k|k] eqn:Hk;
    cbn [valid_binary]; unfold bounded, canonical_mantissa, fexp, emin, prec, emax;
    apply andb_true_intro; split; try (apply Z.eqb_eq); try (apply Z.leb_le);
    rewrite ?digits2_pos_iter_xO; lia.
Qed.

Lemma binary_normalize_small (p : positive) :
  Z.pos p < 2 ^ 53 →
  binary_normalize prec emax (Z.pos p) 0 false = float_of_small p.
Proof.
  intros Hp. pose proof (float_of_small_bounded p Hp) as Hv.
  apply digits2_pos_bound in Hp.
  unfold binary_normalize, binary_round, shl_align, float_of_small in *.
  replace (fexp prec emax (Z.pos (digits2_pos p) + 0) - 0)
    with (- (53 - Z.pos (digits2_pos p)))
    by (unfold fexp, emin, prec, emax; lia).
  destruct (53 - Z.pos (digits2_pos p)) as [|k|k] eqn:Hk; cbn [Z.opp].
  - by apply binary_round_aux_canonical.
  - replace (fexp prec emax (Z.pos (digits2_pos p) + 0)) with (Z.neg k)
      by (unfold fexp, emin, prec, emax; lia).
    by apply binary_round_aux_canonical.
  - lia.
Qed.

Lemma float_of_small_exact (p : positive) :
  float_is_int (float_of_small p) (Z.pos p).
Proof.
  unfold float_of_small.
  destruct (53 - Z.pos (digits2_pos p)) as [|k|k]; cbn [float_is_int cond_Zopp].
  - left. lia.
  - right. split; [lia|]. apply iter_xO_value.
  - left. lia.
Qed.

Lemma float_of_int_small (z : Z) :
  0 <= z < 2 ^ 53 →
  ∃ f, float_of_int z = Ok f
       ∧ valid_binary prec emax f = true ∧ float_is_int f z.
Proof.
  intros [H0 Hz]. unfold float_of_int. destruct z as [|p|p]; [| |lia].
  - exists float_zero. by cbn.
  - rewrite (binary_normalize_small p Hz). exists (float_of_small p).
    split; [|split].
    + unfold float_of_small. by destruct (53 - Z.pos (digits2_pos p)).
    + by apply float_of_small_bounded.
    + apply float_of_small_exact.
Qed.

(** The bit length brackets the number. *)
Lemma digits2_pos_bracket (p : positive) :
  2 ^ (Z.pos (digits2_pos p) - 1) <= Z.pos p < 2 ^ Z.pos (digits2_pos p).
Proof.
  rewrite digits2_pos_size.
  pose proof (Pos.size_le p) as Hle. pose proof (Pos.size_gt p) as Hgt.
  assert (Z.pos (2 ^ Pos.size p) = 2 ^ Z.pos (Pos.size p)) as Hpow
    by (rewrite Pos2Z.inj_pow; reflexivity).
  assert (Z.pos (2 ^ Pos.size p) <= Z.pos p~0) as Hz1 by exact Hle.
  assert (Z.pos p < Z.pos (2 ^ Pos.size p)) as Hz2 by exact Hgt.
  rewrite Hpow in Hz1, Hz2. split; [|exact Hz2].
  replace (Z.pos (Pos.size p)) with (Z.succ (Z.pos (Pos.size p) - 1)) in Hz1 by lia.
  rewrite Z.pow_succ_r in Hz1 by lia. lia.
Qed.

Lemma digits2_pos_unique (m : positive) (n : Z) :
  2 ^ (n - 1) <= Z.pos m < 2 ^ n → Z.pos (digits2_pos m) = n.
Proof.
  intros [Hlo Hhi]. pose proof (digits2_pos_bracket m) as [Hl Hh].
  set (d := Z.pos (digits2_pos m)) in *.
  assert (0 < n).
  { destruct (Z.lt_ge_cases 0 n); [done|].
    assert (2 ^ n <= 2 ^ 0) by (apply Z.pow_le_mono_r; lia).
    change (2 ^ 0) with 1 in *. lia. }
  destruct (Z.lt_trichotomy d n) as [Hlt|[Heq|Hgt]]; [|done|].
  - assert (2 ^ d <= 2 ^ (n - 1)) by (apply Z.pow_le_mono_r; lia). lia.
  - assert (2 ^ n <= 2 ^ (d - 1)) by (apply Z.pow_le_mono_r; lia). lia.
Qed.

(** Shifting right: [shr] drops [k] bits and remembers the last one. *)
Lemma iter_pos_nat {A} (f : A → A) (p : positive) (x : A) :
  SpecFloat.iter_pos f p x = Nat.iter (Pos.to_nat p) f x.
Proof.
  revert x. induction p as [p IH|p IH|]; intros x; cbn [SpecFloat.iter_pos].
  - rewrite !IH, Pos2Nat.inj_xI.
    rewrite <- Nat.iter_succ_r, <- Nat.iter_add. f_equal. lia.
  - rewrite !IH, Pos2Nat.inj_xO.
    rewrite <- Nat.iter_add. f_equal. lia.
  - reflexivity.
Qed.

Lemma shr_1_spec (m : Z) (r s : bool) :
  0 <= m →
  shr_m (shr_1 (Build_shr_record m r s)) = m / 2
  ∧ shr_r (shr_1 (Build_shr_record m r s)) = Z.odd m.
Proof.
  intros Hm. rewrite <- Z.div2_div.
  destruct m as [|[p|p|]|]; done.
Qed.

Lemma shr_iter_spec (n : nat) (m : Z) (r s : bool) :
  0 <= m →
  shr_m (Nat.iter (S n) shr_1 (Build_shr_record m r s)) = m / 2 ^ Z.of_nat (S n)
  ∧ shr_r (Nat.iter (S n) shr_1 (Build_shr_record m r s)) = Z.testbit m (Z.of_nat n).
Proof.
  intros Hm. induction n as [|n [IHm IHr]].
  - change (Nat.iter 1 shr_1 (Build_shr_record m r s))
      with (shr_1 (Build_shr_record m r s)).
    destruct (shr_1_spec m r s Hm) as [-> ->].
    split; [done|]. by rewrite Z.bit0_odd.
  - rewrite (Nat.iter_succ (S n)).
    destruct (Nat.iter (S n) shr_1 (Build_shr_record m r s)) as [m1 r1 s1].
    cbn [shr_m shr_r] in *. subst m1.
    assert (0 <= m / 2 ^ Z.of_nat (S n)) as Hpos by (apply Z.div_pos; lia).
    destruct (shr_1_spec _ r1 s1 Hpos) as [-> ->]. split.
    + rewrite Z.div_div by lia. f_equal.
      rewrite (Nat2Z.inj_succ (S n)), Z.pow_succ_r by lia. lia.
    + rewrite <- Z.bit0_odd, Z.div_pow2_bits by lia. f_equal; lia.
Qed.

Lemma shr_spec (m : Z) (k : positive) (e : Z) :
  0 <= m →
  ∃ r s,
    shr (Build_shr_record m false false) e (Z.pos k)
      = (Build_shr_record (m / 2 ^ Z.pos k) r s, e + Z.pos k)
    ∧ r = Z.testbit m (Z.pos k - 1).
Proof.
  intros Hm. cbn [shr]. rewrite iter_pos_nat.
  destruct (Pos2Nat.is_succ k) as [n Hn]. rewrite Hn.
  destruct (shr_iter_spec n m false false Hm) as [Hm' Hr'].
  destruct (Nat.iter (S n) shr_1 _) as [m1 r1 s1]. cbn [shr_m shr_r] in *.
  exists r1, s1. subst m1 r1.
  assert (Z.of_nat (S n) = Z.pos k) as Hk by lia. rewrite Hk.
  split; [done|]. f_equal. lia.
Qed.

Lemma round_nearest_even_cases (m : Z) (r s : bool) :
  let mx := round_nearest_even m (loc_of_shr_record (Build_shr_record m r s)) in
  mx = m ∨ (mx = m + 1 ∧ r = true).
Proof.
  destruct r, s; cbn; try (by left); [|destruct (Z.even m)]; auto.
Qed.

Lemma bounded_53 (m : positive) (e : Z) :
  2 ^ 52 <= Z.pos m < 2 ^ 53 → -1074 <= e <= 971 →
  bounded prec emax m e = true.
Proof.
  intros Hm He.
  assert (Z.pos (digits2_pos m) = 53) as Hd by (by apply digits2_pos_unique).
  unfold bounded, canonical_mantissa, fexp, emin, prec, emax. rewrite Hd.
  apply andb_true_intro. split; [apply Z.eqb_eq|apply Z.leb_le]; lia.
Qed.

(** The float operations are stated with the core library's integer
    functions; this names them as the standard library does. *)
Ltac stdz :=
  change IntDef.Z.add with Z.add in *;
  change IntDef.Z.sub with Z.sub in *;
  change IntDef.Z.leb with Z.leb in *;
  change IntDef.Z.eqb with Z.eqb in *;
  change IntDef.Z.max with Z.max in *.

(** Rounding an [int] of 54 bits or more: [k] bits are dropped, the 53
    that remain are rounded to nearest even on the last bit dropped, and
    a carry into a 54th bit costs one more shift. *)
Lemma binary_round_wide (sg : bool) (p : positive) :
  2 ^ 53 <= Z.pos p →
  ∃ (k : positive) (r s : bool),
    Z.pos k = Z.pos (digits2_pos p) - 53
    ∧ 2 ^ 52 <= Z.pos p / 2 ^ Z.pos k < 2 ^ 53
    ∧ r = Z.testbit (Z.pos p) (Z.pos k - 1)
    ∧ binary_round prec emax sg p 0 =
        let mx := round_nearest_even (Z.pos p / 2 ^ Z.pos k)
                    (loc_of_shr_record
                       (Build_shr_record (Z.pos p / 2 ^ Z.pos k) r s)) in
        if mx <? 2 ^ 53 then
          if Z.pos k <=? 971 then S754_finite sg (Z.to_pos mx) (Z.pos k)
          else S754_infinity sg
        else
          if Z.pos k + 1 <=? 971
          then S754_finite sg 4503599627370496 (Z.pos k + 1)
          else S754_infinity sg.
Proof.
  intros Hlo.
  pose proof (digits2_pos_bracket p) as [Hdl Hdh].
  unfold binary_round, shl_align.
  remember (Z.pos (digits2_pos p)) as d eqn:Hd.
  assert (54 <= d) as Hd54.
  { destruct (Z.lt_ge_cases d 54) as [Hlt|]; [|done].
    assert (2 ^ d <= 2 ^ 53) by (apply Z.pow_le_mono_r; lia). lia. }
  destruct (d - 53) as [|k|k] eqn:Hk; [lia| |lia].
  assert (Hfexp : fexp prec emax (d + 0) = Z.pos k)
    by (unfold fexp, emin, prec, emax; lia).
  stdz. rewrite Hfexp, Z.sub_0_r.
  unfold binary_round_aux, shr_fexp. cbn [Zdigits2 shr_record_of_loc].
  stdz. rewrite <- Hd, Hfexp, Z.sub_0_r.
  destruct (shr_spec (Z.pos p) k 0) as (r & s & -> & Hr); [lia|].
  cbn [shr_m]. rewrite !Z.add_0_l.
  exists k, r, s.
  remember (Z.pos p / 2 ^ Z.pos k) as m' eqn:Hm'def.
  assert (2 ^ 52 <= m' < 2 ^ 53) as Hm'.
  { assert (0 < 2 ^ Z.pos k) by (apply Z.pow_pos_nonneg; lia).
    assert (2 ^ (d - 1) = 2 ^ 52 * 2 ^ Z.pos k) as E1
      by (rewrite <- Z.pow_add_r by lia; f_equal; lia).
    assert (2 ^ d = 2 ^ 53 * 2 ^ Z.pos k) as E2
      by (rewrite <- Z.pow_add_r by lia; f_equal; lia).
    subst m'. split.
    - apply Z.div_le_lower_bound; lia.
    - apply Z.div_lt_upper_bound; lia. }
  split; [lia|]. split; [done|]. split; [done|]. cbn zeta.
  pose proof (round_nearest_even_cases m' r s) as Hround. cbn zeta in Hround.
  remember (round_nearest_even m' _) as mx eqn:Hmxdef. clear Hmxdef.
  assert (2 ^ 52 <= mx <= 2 ^ 53) as Hmx
    by (destruct Hround as [->|[-> _]]; lia).
  destruct mx as [|mp|mp] eqn:Hmxeq;
    [change (2^52) with 4503599627370496 in *; lia| |lia].
  destruct (Z.ltb_spec (Z.pos mp) (2 ^ 53)) as [Hlt|Hge].
  - assert (Z.pos (digits2_pos mp) = 53) as Hdm
      by (apply digits2_pos_unique; lia).
    cbn [Zdigits2]. rewrite Hdm.
    replace (fexp prec emax (53 + Z.pos k) - Z.pos k) with 0
      by (unfold fexp, emin, prec, emax; lia).
    cbn [shr_record_of_loc shr shr_m Z.to_pos]. stdz. reflexivity.
  - assert (Z.pos mp = 2 ^ 53) as Heq by lia.
    change (2 ^ 53) with (Z.pos 9007199254740992) in Heq. injection Heq as ->.
    change (Zdigits2 9007199254740992) with 54.
    replace (fexp prec emax (54 + Z.pos k) - Z.pos k) with 1
      by (unfold fexp, emin, prec, emax; lia).
    cbn [shr_record_of_loc shr shr_m SpecFloat.iter_pos shr_1]. stdz.
    reflexivity.
Qed.

(** The last bit dropped and what remains above it. *)
Lemma top_bits (p : positive) :
  Z.pos p / 2 ^ 971 = 2 ^ 53 - 1 →
  Z.testbit (Z.pos p) 970 = true ↔ 2 ^ 1024 - 2 ^ 970 <= Z.pos p.
Proof.
  intros Htop.
  assert (0 < 2 ^ 970) as Hpos by (apply Z.pow_pos_nonneg; lia).
  assert (2 ^ 971 = 2 ^ 970 * 2) as E971
    by (rewrite Z.mul_comm, <- Z.pow_succ_r by lia; reflexivity).
  assert (2 ^ 1024 = 2 ^ 54 * 2 ^ 970) as E1024
    by (by rewrite <- Z.pow_add_r).
  rewrite E971, <- Z.div_div in Htop by lia.
  pose proof (Z.div_mod (Z.pos p / 2 ^ 970) 2 ltac:(lia)) as Hdm.
  pose proof (Z.mod_pos_bound (Z.pos p / 2 ^ 970) 2 ltac:(lia)) as Hmb.
  pose proof (Z.mul_div_le (Z.pos p) (2 ^ 970) Hpos) as Hle.
  pose proof (Z.mul_succ_div_gt (Z.pos p) (2 ^ 970) Hpos) as Hgt.
  rewrite Z.testbit_true by lia.
  change (2 ^ 53) with 9007199254740992 in *.
  change (2 ^ 54) with 18014398509481984 in *.
  split; intros Hb; nia.
Qed.

(** Conversion of an [int] of 54 bits or more that stays below the
    overflow threshold gives a finite, well-formed float. *)
Lemma binary_round_large (sg : bool) (p : positive) :
  2 ^ 53 <= Z.pos p < 2 ^ 1024 - 2 ^ 970 →
  ∃ m e, binary_round prec emax sg p 0 = S754_finite sg m e
         ∧ bounded prec emax m e = true.
Proof.
  intros [Hlo Hhi].
  destruct (binary_round_wide sg p Hlo) as (k & r & s & Hk & Hm' & Hr & ->).
  pose proof (digits2_pos_bracket p) as [Hdl Hdh].
  assert (Z.pos k <= 971) as Hk971.
  { destruct (Z.le_gt_cases (Z.pos k) 971) as [|Hgt]; [done|].
    assert (2 ^ 1024 <= 2 ^ (Z.pos (digits2_pos p) - 1))
      by (apply Z.pow_le_mono_r; lia).
    assert (0 < 2 ^ 970) by (apply Z.pow_pos_nonneg; lia). lia. }
  cbn zeta.
  pose proof (round_nearest_even_cases (Z.pos p / 2 ^ Z.pos k) r s) as Hround.
  cbn zeta in Hround.
  remember (round_nearest_even _ _) as mx eqn:Hmxdef. clear Hmxdef.
  destruct (Z.ltb_spec mx (2 ^ 53)) as [Hlt|Hge].
  - assert ((Z.pos k <=? 971) = true) as -> by (by apply Z.leb_le).
    destruct mx as [|mp|mp]; [destruct Hround as [?|[? _]]; lia| |lia].
    exists mp, (Z.pos k). split; [done|].
    apply bounded_53; [|lia]. destruct Hround as [?|[? _]]; lia.
  - destruct Hround as [->|[-> Hrt]]; [lia|].
    assert (Z.pos k <= 970) as Hk970.
    { destruct (Z.le_gt_cases (Z.pos k) 970) as [|Hgt]; [done|exfalso].
      assert (Z.pos k = 971) as E by lia. rewrite E in *.
      assert (Z.pos p / 2 ^ 971 = 2 ^ 53 - 1) as Htop by lia.
      change (971 - 1) with 970 in Hr. rewrite Hrt in Hr. symmetry in Hr.
      apply (top_bits p Htop) in Hr. lia. }
    assert ((Z.pos k + 1 <=? 971) = true) as -> by (apply Z.leb_le; lia).
    eexists _, _. split; [done|]. apply bounded_53; [done|lia].
Qed.

(** At the threshold and beyond, the conversion overflows. *)
Lemma binary_round_overflow (sg : bool) (p : positive) :
  2 ^ 1024 - 2 ^ 970 <= Z.pos p →
  binary_round prec emax sg p 0 = S754_infinity sg.
Proof.
  intros Hhi.
  assert (0 < 2 ^ 970) as Hpos by (apply Z.pow_pos_nonneg; lia).
  assert (2 ^ 1024 = 2 ^ 54 * 2 ^ 970) as E1024
    by (by rewrite <- Z.pow_add_r).
  assert (2 ^ 1023 = 2 ^ 53 * 2 ^ 970) as E1023
    by (by rewrite <- Z.pow_add_r).
  assert (2 ^ 53 <= Z.pos p) as Hlo.
  { change (2 ^ 53) with 9007199254740992 in *.
    change (2 ^ 54) with 18014398509481984 in *. nia. }
  destruct (binary_round_wide sg p Hlo) as (k & r & s & Hk & Hm' & Hr & ->).
  pose proof (digits2_pos_bracket p) as [Hdl Hdh].
  assert (971 <= Z.pos k) as Hk971.
  { destruct (Z.le_gt_cases 971 (Z.pos k)) as [|Hlt]; [done|].
    assert (2 ^ Z.pos (digits2_pos p) <= 2 ^ 1023)
      by (apply Z.pow_le_mono_r; lia).
    change (2 ^ 53) with 9007199254740992 in *.
    change (2 ^ 54) with 18014398509481984 in *. nia. }
  cbn zeta.
  pose proof (round_nearest_even_cases (Z.pos p / 2 ^ Z.pos k) r s) as Hround.
  cbn zeta in Hround.
  destruct (Z.le_gt_cases (Z.pos k) 971) as [Hle|Hgt].
  - assert (Z.pos k = 971) as E by lia. rewrite E in *.
    change (971 - 1) with 970 in Hr.
    assert (Z.pos p / 2 ^ 971 = 2 ^ 53 - 1) as Htop.
    { assert (2 ^ 971 = 2 * 2 ^ 970) as E971
        by (rewrite <- Z.pow_succ_r by lia; reflexivity).
      assert (0 < 2 ^ 971) by lia.
      assert (2 ^ 53 - 1 <= Z.pos p / 2 ^ 971); [|lia].
      apply Z.div_le_lower_bound; [done|].
      change (2 ^ 53) with 9007199254740992 in *.
      change (2 ^ 54) with 18014398509481984 in *. nia. }
    assert (r = true) as -> by (rewrite Hr; by apply (top_bits p Htop)).
    rewrite Htop. destruct s; reflexivity.
  - remember (round_nearest_even _ _) as mx eqn:Hmxdef. clear Hmxdef.
    assert ((Z.pos k <=? 971) = false) as -> by (apply Z.leb_gt; lia).
    assert ((Z.pos k + 1 <=? 971) = false) as -> by (apply Z.leb_gt; lia).
    by destruct (mx <? 2 ^ 53).
Qed.

Lemma float_of_int_in_range (z : Z) :
  0 <= z < 2 ^ 1024 - 2 ^ 970 →
  ∃ f, float_of_int z = Ok f ∧ valid_binary prec emax f = true.
Proof.
  intros [H0 Hz].
  destruct (Z.lt_ge_cases z (2 ^ 53)) as [Hsmall|Hlarge].
  - destruct (float_of_int_small z) as (f & Hf & Hv & _); [done|]. eauto.
  - destruct z as [|p|p]; [done| |lia].
    destruct (binary_round_large false p) as (m & e & Hr & Hb); [done|].
    exists (S754_finite false m e).
    unfold float_of_int, binary_normalize. rewrite Hr. done.
Qed.

Lemma float_of_int_beyond_range (z : Z) :
  2 ^ 1024 - 2 ^ 970 <= z →
  float_of_int z =
    Raise (mk_exn OverflowError "int too large to convert to float").
Proof.
  intros Hz. assert (0 < 2 ^ 970) by (apply Z.pow_pos_nonneg; lia).
  assert (2 ^ 1024 = 2 ^ 54 * 2 ^ 970) by (by rewrite <- Z.pow_add_r).
  destruct z as [|p|p];
    [change (2 ^ 54) with 18014398509481984 in *; nia| |lia].
  unfold float_of_int, binary_normalize.
  by rewrite (binary_round_overflow false p Hz).
Qed.

(** The conversion at the edge of the float range: the largest [int]
    that still rounds to a finite float, and the first that does not. *)
Example float_of_int_largest :
  float_of_int (2 ^ 1024 - 2 ^ 970 - 1)
  = Ok (S754_finite false 9007199254740991 971).
Proof. vm_compute. reflexivity. Qed.

Example float_of_int_overflow :
  float_of_int (2 ^ 1024 - 2 ^ 970)
  = Raise (mk_exn OverflowError "int too large to convert to float").
Proof. vm_compute. reflexivity. Qed.

(** The method as written returns [None], so [calculate_pay] as written
    raises [TypeError] on every entity. *)
Lemma calculate_pay_stub_raises (self : AIPayroll.t) (E : Entity) :
  calculate_pay self E =
    Raise (mk_exn TypeError
             "unsupported operand type(s) for *: 'NoneType' and 'float'").
Proof. reflexivity. Qed.

Section PayClaims.
Variable usage : AIPayroll.t → Entity → result PyVal.

(** C3, amended.  When the usage method returns a non-negative number
    [d] that is a float, or an [int] below 2^1024 - 2^970 (where the
    conversion to a float starts to overflow), [calculate_pay] returns
    the float [d * 1.0], the rate being the constant [1.0]: for a float
    [d] that is [d] itself, for an [int] it is [float(d)], which below
    2^53 is equal to [d]. *)
Theorem calculate_pay_in_float_range
    (self : AIPayroll.t) (E : Entity) (d : PyVal) :
  usage self E = Ok d →
  nonneg_number d = true →
  converts_to_float d = true →
  ∃ f, calculate_pay_with usage self E = Ok (VFloat f)
       ∧ mul_float d float_one = Ok (VFloat f)
       ∧ (∀ x, d = VFloat x → f = x)
       ∧ (∀ z, d = VInt z → float_of_int z = Ok f)
       ∧ (∀ z, d = VInt z → z < 2 ^ 53 → float_is_int f z).
Proof.
  intros Hd Hnn Hconv. unfold calculate_pay_with. rewrite Hd.
  destruct d as [|s|z|x]; cbn [nonneg_number converts_to_float] in *; try done.
  - apply Z.leb_le in Hnn. apply Z.ltb_lt in Hconv.
    destruct (float_of_int_in_range z) as (f & Hf & Hv); [lia|].
    exists f. cbn [mul_float]. rewrite Hf, (SFmul_one_r f Hv).
    repeat split; try done.
    + by intros z' [= <-].
    + intros z' [= <-] Hz.
      destruct (float_of_int_small z) as (f' & Hf' & _ & Hex); [lia|].
      congruence.
  - exists x. cbn [mul_float]. rewrite (SFmul_one_r x Hconv).
    repeat split; try done. by intros x' [= <-].
Qed.

(** At the threshold and beyond, the product raises. *)
Lemma calculate_pay_beyond_float_range
    (self : AIPayroll.t) (E : Entity) (z : Z) :
  usage self E = Ok (VInt z) →
  2 ^ 1024 - 2 ^ 970 <= z →
  calculate_pay_with usage self E =
    Raise (mk_exn OverflowError "int too large to convert to float").
Proof.
  intros Hd Hz. unfold calculate_pay_with. rewrite Hd. cbn [mul_float].
  by rewrite (float_of_int_beyond_range z Hz).
Qed.

End PayClaims.

(** * The gateway *)

Section GatewayFacts.
Context `{FloatRepr}.

Lemma format_cases (v : PyVal) :
  (prints v = true ∧ format v = Ok (str v))
  ∨ (prints v = false ∧ ∃ ex, format v = Raise ex ∧ exn_class ex = ValueError).
Proof.
  unfold format. destruct (prints v); [left|right]; eauto.
Qed.

Lemma callAPI_bank_present {G} (data : dict) (v : PyVal) (g : G) :
  data !! "action" = Some v →
  APIUnifier.callAPI "bank_api" data g =
    if eq_str v "credit" then (Ok VNone, g)
    else
      match format v with
      | Ok text =>
          (Raise (mk_exn BankAPIUnifierException
                    ("Unrecognized action: " +:+ text)), g)
      | Raise ex => (Raise ex, g)
      end.
Proof.
  intros Hv. unfold APIUnifier.callAPI, bind, lift, subscript.
  cbn [String.eqb Ascii.eqb Bool.eqb]. rewrite Hv.
  destruct (eq_str v "credit"); [reflexivity|].
  destruct (format v); reflexivity.
Qed.

Lemma callAPI_bank_absent {G} (data : dict) (g : G) :
  data !! "action" = None →
  APIUnifier.callAPI "bank_api" data g =
    (Raise (mk_exn KeyError "'action'"), g).
Proof.
  intros Hv. unfold APIUnifier.callAPI, bind, lift, subscript.
  cbn [String.eqb Ascii.eqb Bool.eqb]. rewrite Hv. reflexivity.
Qed.

Lemma callAPI_other_service {G} (service : string) (data : dict) (g : G) :
  service ≠ "bank_api" →
  APIUnifier.callAPI service data g = (Ok VNone, g).
Proof.
  intros Hs. unfold APIUnifier.callAPI.
  destruct (String.eqb_spec service "bank_api") as [->|_]; [done|].
  reflexivity.
Qed.

End GatewayFacts.

(** [BankAPIUnifierException] is the only exception class among the
    module's globals. *)
Lemma module_defines_one_exception (name : string) (c : ExnClass) :
  module_globals !! name = Some (BClass c) → c = BankAPIUnifierException.
Proof.
  unfold module_globals. cbn [list_to_map foldr uncurry fst snd].
  intros Hl.
  repeat (rewrite lookup_insert in Hl; case_decide; simplify_eq; try done).
Qed.

Section GatewayClaims.
Context `{FloatRepr}.

(** C4. A [bank_api] call whose payload carries the action [credit]
    raises nothing: it returns [None] and leaves the state behind the
    gateway as it was; in particular no [BankAPIUnifierException]. *)
Theorem callAPI_credit_succeeds {G} (data : dict) (g : G) :
  data !! "action" = Some (VStr "credit") →
  APIUnifier.callAPI "bank_api" data g = (Ok VNone, g).
Proof.
  intros Hv. rewrite (callAPI_bank_present _ _ _ Hv). reflexivity.
Qed.

(** C5. A [bank_api] call whose action is a string other than [credit]
    raises [BankAPIUnifierException] with the detail
    [Unrecognized action: <action>].  That class is the only exception
    class the module defines. *)
Theorem callAPI_other_action_raises {G} (data : dict) (a : string) (g : G) :
  data !! "action" = Some (VStr a) →
  a ≠ "credit" →
  APIUnifier.callAPI "bank_api" data g =
    (Raise (mk_exn BankAPIUnifierException ("Unrecognized action: " +:+ a)), g)
  ∧ (∀ name c, module_globals !! name = Some (BClass c) →
               c = BankAPIUnifierException).
Proof.
  intros Hv Hne. split.
  - rewrite (callAPI_bank_present _ _ _ Hv). cbn [eq_str].
    destruct (String.eqb_spec a "credit"); [done|reflexivity].
  - apply module_defines_one_exception.
Qed.

(** C6. A call for any service other than [bank_api] returns [None] and
    raises nothing, whatever the payload. *)
Theorem callAPI_unknown_service_none {G}
    (service : string) (data : dict) (g : G) :
  service ≠ "bank_api" →
  APIUnifier.callAPI service data g = (Ok VNone, g).
Proof.
  intros Hs. unfold APIUnifier.callAPI.
  destruct (String.eqb service "bank_api") eqn:Heq; [|reflexivity].
  apply String.eqb_eq in Heq. contradiction.
Qed.

(** C9. [callAPI("bank_api", data)] subscripts [data] with [action]
    before anything else: on a payload without that key it raises the
    builtin [KeyError], not [BankAPIUnifierException]; and [KeyError] is
    raised by the [bank_api] branch exactly when the key is absent. *)
Theorem callAPI_missing_action_keyerror {G} (data : dict) (g : G) :
  data !! "action" = None →
  APIUnifier.callAPI "bank_api" data g =
    (Raise (mk_exn KeyError "'action'"), g)
  ∧ (∀ (data' : dict) (g1 g2 : G) e,
       APIUnifier.callAPI "bank_api" data' g1 = (Raise e, g2) →
       exn_class e = KeyError → data' !! "action" = None).
Proof.
  intros Hd. split.
  - by apply callAPI_bank_absent.
  - intros data' g1 g2 e Hr Hc.
    destruct (data' !! "action") as [v|] eqn:Hd'; [|done].
    rewrite (callAPI_bank_present _ _ _ Hd') in Hr.
    destruct (eq_str v "credit"); [by simplify_eq|].
    destruct (format_cases v) as [[_ Hf]|[_ (ex & Hf & Hcls)]]; rewrite Hf in Hr;
      simplify_eq; try done; try congruence.
Qed.

(** C10. The outcome of [callAPI] is a function of the service string
    and of the payload's [action] entry alone: two calls that agree on
    both have the same outcome, whatever else the payloads hold and
    whatever the states they run in; and a call leaves the state behind
    the gateway unchanged. *)
Theorem callAPI_depends_on_action_only {G1 G2}
    (service : string) (d1 d2 : dict) (g1 : G1) (g2 : G2) :
  d1 !! "action" = d2 !! "action" →
  (APIUnifier.callAPI service d1 g1).1 = (APIUnifier.callAPI service d2 g2).1
  ∧ (APIUnifier.callAPI service d1 g1).2 = g1
  ∧ (APIUnifier.callAPI service d2 g2).2 = g2.
Proof.
  intros Heq.
  destruct (decide (service = "bank_api")) as [->|Hs].
  - destruct (d1 !! "action") as [v|] eqn:Hd1; symmetry in Heq.
    + rewrite (callAPI_bank_present _ _ g1 Hd1), (callAPI_bank_present _ _ g2 Heq).
      destruct (eq_str v "credit"); [done|]. by destruct (format v).
    + rewrite (callAPI_bank_absent _ g1 Hd1), (callAPI_bank_absent _ g2 Heq).
      done.
  - rewrite !callAPI_other_service by done. done.
Qed.

End GatewayClaims.

(** * The processor *)

Section ProcessorFacts.
Context `{FloatRepr}.
Context {G : Type}.
Variable usage : AIPayroll.t → Entity → result PyVal.
Variable gateway : string → dict → M G PyVal.
Variable globals : namespace.

Abbreviation process_entity := (process_entity usage gateway globals).

Lemma process_entity_no_pay self e ex w :
  calculate_pay_with usage self e = Raise ex →
  process_entity self e w = (Raise ex, w).
Proof.
  intros Hp. unfold AIPayroll.process_entity, bind, lift. by rewrite Hp.
Qed.

(** The pay is a [float], and a [float] always formats. *)
Lemma calculate_pay_prints self e pay :
  calculate_pay_with usage self e = Ok pay → prints pay = true.
Proof.
  unfold calculate_pay_with.
  destruct (usage self e) as [[|s|z|x]|ex]; cbn [mul_float]; try done.
  - destruct (float_of_int z); by intros [= <-].
  - by intros [= <-].
Qed.

Lemma info_fstring_ok pay e :
  prints pay = true → prints (unique_id e) = true →
  info_fstring pay e = Ok (info_message pay e).
Proof. intros Hp Hi. unfold info_fstring, format. by rewrite Hp, Hi. Qed.

Lemma info_fstring_unprintable pay e :
  prints pay = true → prints (unique_id e) = false →
  ∃ ex, info_fstring pay e = Raise ex ∧ exn_class ex = ValueError.
Proof.
  intros Hp Hi. unfold info_fstring, format. rewrite Hp, Hi. eauto.
Qed.

Lemma error_fstring_cases e ex :
  (prints (unique_id e) = true ∧ error_fstring e ex = Ok (error_message e ex))
  ∨ (prints (unique_id e) = false ∧ ∃ ex', error_fstring e ex = Raise ex').
Proof.
  unfold error_fstring, format.
  destruct (prints (unique_id e)); [left|right]; eauto.
Qed.

Lemma process_entity_credited self e pay v g w :
  calculate_pay_with usage self e = Ok pay →
  gateway "bank_api" (credit_payload e pay) (bank w) = (Ok v, g) →
  prints (unique_id e) = true →
  process_entity self e w =
    (Ok tt, add_log (after_call w e pay g) (INFO, info_message pay e)).
Proof.
  intros Hp Hg Hi.
  unfold AIPayroll.process_entity, bind, lift, try_except, call_gateway.
  rewrite Hp, Hg, (info_fstring_ok _ _ (calculate_pay_prints _ _ _ Hp) Hi).
  reflexivity.
Qed.

(** When the request went through but the entity's id cannot be
    formatted, the [ValueError] of the f-string is raised inside the
    [try] block and goes to the [except] clause. *)
Lemma process_entity_unprintable self e pay v g w :
  calculate_pay_with usage self e = Ok pay →
  gateway "bank_api" (credit_payload e pay) (bank w) = (Ok v, g) →
  prints (unique_id e) = false →
  ∃ ex, exn_class ex = ValueError
        ∧ process_entity self e w
          = handled globals e ex (after_call w e pay g).
Proof.
  intros Hp Hg Hi.
  destruct (info_fstring_unprintable pay e (calculate_pay_prints _ _ _ Hp) Hi)
    as (ex & Hf & Hcls).
  exists ex. split; [done|].
  unfold AIPayroll.process_entity, bind, lift, try_except, call_gateway, handled.
  rewrite Hp, Hg, Hf.
  destruct (resolve globals "APIUnifierException") as [[c|]|]; try reflexivity;
    destruct (isinstance ex c); try reflexivity;
    by destruct (error_fstring e ex).
Qed.

Lemma process_entity_failed self e pay ex g w :
  calculate_pay_with usage self e = Ok pay →
  gateway "bank_api" (credit_payload e pay) (bank w) = (Raise ex, g) →
  process_entity self e w = handled globals e ex (after_call w e pay g).
Proof.
  intros Hp Hg.
  unfold AIPayroll.process_entity, bind, lift, try_except, call_gateway, handled.
  rewrite Hp, Hg.
  destruct (resolve globals "APIUnifierException") as [[c|]|]; try reflexivity;
    destruct (isinstance ex c); try reflexivity;
    by destruct (error_fstring e ex).
Qed.

(** The [except] clause either reports the exception and ends the
    iteration normally, or lets an exception out and changes nothing. *)
Lemma handled_cases e ex (w : World G) :
  handled globals e ex w = (Ok tt, add_log w (ERROR, error_message e ex))
  ∨ ∃ ex', handled globals e ex w = (Raise ex', w).
Proof.
  unfold handled.
  destruct (resolve globals "APIUnifierException") as [[c|]|]; eauto.
  destruct (isinstance ex c); eauto.
  destruct (error_fstring_cases e ex) as [[_ ->]|[_ (ex' & ->)]]; eauto.
Qed.

Lemma process_entity_step self e w :
  entity_step usage gateway self e w
    (process_entity self e w).1 (process_entity self e w).2.
Proof.
  destruct (calculate_pay_with usage self e) as [pay|ex] eqn:Hp.
  - destruct (gateway "bank_api" (credit_payload e pay) (bank w))
      as [[v|ex] g] eqn:Hg.
    + destruct (prints (unique_id e)) eqn:Hi.
      * rewrite (process_entity_credited _ _ _ _ _ _ Hp Hg Hi). by econstructor.
      * destruct (process_entity_unprintable _ _ _ _ _ w Hp Hg Hi)
          as (ex & Hcls & ->).
        destruct (handled_cases e ex (after_call w e pay g))
          as [Hh|(ex' & ->)]; [|by econstructor].
        exfalso. revert Hh. unfold handled.
        destruct (resolve globals "APIUnifierException") as [[c|]|]; try done.
        destruct (isinstance ex c); [|done].
        destruct (error_fstring_cases e ex) as [[? _]|[_ (ex' & ->)]];
          [congruence|done].
    + rewrite (process_entity_failed _ _ _ _ _ _ Hp Hg).
      destruct (handled_cases e ex (after_call w e pay g))
        as [->|(ex' & ->)]; by econstructor.
  - rewrite (process_entity_no_pay _ _ _ _ Hp). by constructor.
Qed.

(** A relation between states that every iteration respects holds
    between the start and the end of the loop. *)
Lemma for_each_respects {S A} (R : S → S → Prop) (body : A → M S unit)
    (l : list A) :
  (∀ s, R s s) →
  (∀ s1 s2 s3, R s1 s2 → R s2 s3 → R s1 s3) →
  (∀ x s, x ∈ l → R s (body x s).2) →
  ∀ s, R s (for_each l body s).2.
Proof.
  intros Hrefl Htrans. induction l as [|x l IH]; intros Hbody s.
  - apply Hrefl.
  - cbn [for_each]. unfold bind.
    pose proof (Hbody x s ltac:(left)) as Hx.
    destruct (body x s) as [[[]|ex] s1]; cbn [snd] in *; [|done].
    eapply Htrans; [exact Hx|]. apply IH.
    intros y s' Hy. apply Hbody. by right.
Qed.

Lemma process_payroll_run (w : World G) :
  process_payroll_with usage gateway globals w =
    match for_each (ai_entities (self_of w)) (process_entity (self_of w)) w with
    | (Ok _, w') => (Ok VNone, w')
    | (Raise ex, w') => (Raise ex, w')
    end.
Proof.
  unfold process_payroll_with, bind, gets, ret.
  destruct (for_each _ _ w) as [[[]|ex] w']; reflexivity.
Qed.

Lemma process_payroll_state (w : World G) :
  (process_payroll_with usage gateway globals w).2 =
    (for_each (ai_entities (self_of w)) (process_entity (self_of w)) w).2.
Proof.
  rewrite process_payroll_run.
  destruct (for_each _ _ w) as [[[]|ex] w']; reflexivity.
Qed.

(** C8. The processor's collection is what the constructor was given,
    and a run of [process_payroll], however it ends, leaves the
    instance, hence its collection, as it was. *)
Theorem process_payroll_keeps_entities (entities : list Entity) (g : G) :
  ai_entities (AIPayroll.__init__ entities) = entities
  ∧ self_of (start entities g) = AIPayroll.__init__ entities
  ∧ (∀ w : World G,
       self_of (process_payroll_with usage gateway globals w).2 = self_of w)
  ∧ ai_entities
      (self_of (process_payroll_with usage gateway globals
                  (start entities g)).2) = entities.
Proof.
  assert (Hkeep : ∀ w : World G,
    self_of (process_payroll_with usage gateway globals w).2 = self_of w).
  { intros w. rewrite process_payroll_state.
    apply (for_each_respects (λ s s', self_of s' = self_of s)).
    - done.
    - intros s1 s2 s3 H12 H23. by rewrite H23.
    - intros e s _.
      destruct (process_entity_step (self_of w) e s); reflexivity. }
  repeat split; [exact Hkeep|]. by rewrite Hkeep.
Qed.

(** C7. Every record a run of [process_payroll] hands to [logging]
    concerns an entity of the collection and is one of two messages:
    at level INFO, after the gateway call returned,
    [Successfully credited $<pay> to AI entity <id>.]; at level ERROR,
    after the gateway call raised,
    [Failed to process payroll for AI entity <id>: <detail>]; with the
    pay [calculate_pay] returned, the entity's [unique_id] and the
    detail of the exception raised. *)
Theorem log_records_follow_templates
    (entities : list Entity) (g : G) (r : LogRecord) :
  r ∈ log (process_payroll_with usage gateway globals (start entities g)).2 →
  ∃ e pay g1 g2,
    e ∈ entities
    ∧ calculate_pay_with usage (AIPayroll.__init__ entities) e = Ok pay
    ∧ ((∃ v,
          gateway "bank_api" (credit_payload e pay) g1 = (Ok v, g2)
          ∧ r = (INFO,
                 "Successfully credited $" +:+ str pay
                   +:+ " to AI entity " +:+ str (unique_id e) +:+ "."))
       ∨ (∃ ex,
            gateway "bank_api" (credit_payload e pay) g1 = (Raise ex, g2)
            ∧ r = (ERROR,
                   "Failed to process payroll for AI entity "
                     +:+ str (unique_id e) +:+ ": " +:+ exn_detail ex))).
Proof.
  set (self := AIPayroll.__init__ entities).
  set (good := λ r : LogRecord, ∃ e pay g1 g2,
    e ∈ entities
    ∧ calculate_pay_with usage self e = Ok pay
    ∧ ((∃ v, gateway "bank_api" (credit_payload e pay) g1 = (Ok v, g2)
             ∧ r = (INFO, info_message pay e))
       ∨ (∃ ex, gateway "bank_api" (credit_payload e pay) g1 = (Raise ex, g2)
                ∧ r = (ERROR, error_message e ex)))).
  intros Hr. change (good r).
  rewrite process_payroll_state in Hr.
  assert (Hall : ∃ new,
    log (for_each entities (process_entity self) (start entities g)).2
      = log (start entities g) ++ new ∧ Forall good new).
  { apply (for_each_respects
             (λ s s', ∃ new, log s' = log s ++ new ∧ Forall good new)).
    - intros s. exists []. by rewrite app_nil_r.
    - intros s1 s2 s3 (n1 & E1 & F1) (n2 & E2 & F2). exists (n1 ++ n2).
      rewrite E2, E1, app_assoc. split; [done|]. by apply Forall_app.
    - intros e s He.
      destruct (process_entity_step self e s) as [ex Hp|pay v g' Hp Hg _|pay ex g' Hp Hg|pay ex ex' g' Hp Hg].
      + exists []. by rewrite app_nil_r.
      + exists [(INFO, info_message pay e)]. split; [done|].
        apply Forall_singleton. exists e, pay, (bank s), g'. eauto 10.
      + exists [(ERROR, error_message e ex)]. split; [done|].
        apply Forall_singleton. exists e, pay, (bank s), g'. eauto 10.
      + exists []. cbn. by rewrite app_nil_r. }
  destruct Hall as (new & Hlog & Hgood).
  cbn [start self_of AIPayroll.__init__ ai_entities] in Hr.
  fold self in Hr. rewrite Hlog in Hr. cbn [start log app] in Hr.
  by eapply Forall_forall in Hgood.
Qed.

End ProcessorFacts.


(** * The processor with the gateway of the module *)

Section CreditRuns.
Context `{FloatRepr}.
Context {G : Type}.
Variable usage : AIPayroll.t → Entity → result PyVal.
Variable globals : namespace.

Lemma credit_payload_action (e : Entity) (pay : PyVal) :
  credit_payload e pay !! "action" = Some (VStr "credit").
Proof.
  unfold credit_payload.
  rewrite !lookup_insert_ne by done. apply lookup_insert_eq.
Qed.

Lemma for_each_credits (self : AIPayroll.t) (l : list Entity) (w : World G) :
  Forall (λ e, is_ok (calculate_pay_with usage self e) = true) l →
  Forall (λ e, prints (unique_id e) = true) l →
  for_each l (process_entity usage APIUnifier.callAPI globals self) w =
    (Ok tt,
     mk_world (self_of w)
       (log w ++ map (info_record usage self) l)
       (issued w ++ map (request_for usage self) l)
       (bank w)).
Proof.
  revert w. induction l as [|e l IH]; intros w Hok Hids.
  - cbn. rewrite !app_nil_r. by destruct w.
  - apply Forall_cons in Hok as [He Hl]. apply Forall_cons in Hids as [Hi Hil].
    destruct (calculate_pay_with usage self e) as [pay|ex] eqn:Hp; [|done].
    cbn [for_each]. unfold bind at 1.
    rewrite (process_entity_credited usage APIUnifier.callAPI globals
               self e pay VNone (bank w) w Hp).
    + rewrite IH by done. cbn [map].
      unfold info_record, request_for, pay_of. rewrite Hp.
      unfold add_log, after_call. cbn [self_of log issued bank].
      by rewrite <- !app_assoc.
    + rewrite (callAPI_bank_present _ _ _ (credit_payload_action e pay)).
      reflexivity.
    + exact Hi.
Qed.

(** C2, amended.  When [calculate_pay] returns on every entity of the
    collection and every [unique_id] can be formatted (it is not an [int]
    of more than 4300 digits), a run of [process_payroll] against the
    module's gateway returns, and the requests it issued are exactly one
    per entity, in the order of the collection, each to [bank_api] with
    the action [credit], the entity's [unique_id] and its pay. *)
Theorem process_payroll_one_request_per_entity
    (entities : list Entity) (g : G) :
  Forall (λ e, is_ok (calculate_pay_with usage
                        (AIPayroll.__init__ entities) e) = true) entities →
  Forall (λ e, prints (unique_id e) = true) entities →
  let run := process_payroll_with usage APIUnifier.callAPI globals
               (start entities g) in
  run.1 = Ok VNone
  ∧ issued run.2 =
      map (λ e, ("bank_api",
                 <["amount" := pay_of usage (AIPayroll.__init__ entities) e]>
                   (<["unique_id" := unique_id e]>
                      (<["action" := VStr "credit"]> ∅))))
        entities
  ∧ length (issued run.2) = length entities.
Proof.
  intros Hok Hids run. subst run. rewrite process_payroll_run.
  cbn [start self_of AIPayroll.__init__ ai_entities].
  rewrite for_each_credits by done.
  cbn [fst snd issued app]. split; [done|]. split; [done|].
  unfold start. cbn [issued app]. apply length_map.
Qed.

End CreditRuns.

(** * The script as written *)

Section AsWritten.
Context `{FloatRepr}.
Context {G : Type}.
Variable usage : AIPayroll.t → Entity → result PyVal.
Variable gateway : string → dict → M G PyVal.

Lemma handler_class_unbound :
  resolve module_globals "APIUnifierException" = None.
Proof. reflexivity. Qed.

(** Whenever the gateway raises, evaluating the handler clause raises
    [NameError]: nothing is logged and the exception leaves the loop
    body. *)
Lemma gateway_failure_raises_NameError self e pay ex g (w : World G) :
  calculate_pay_with usage self e = Ok pay →
  gateway "bank_api" (credit_payload e pay) (bank w) = (Raise ex, g) →
  process_entity usage gateway module_globals self e w =
    (Raise (mk_exn NameError "name 'APIUnifierException' is not defined"),
     after_call w e pay g).
Proof.
  intros Hp Hg.
  rewrite (process_entity_failed usage gateway module_globals
             self e pay ex g w Hp Hg).
  reflexivity.
Qed.

(** So does an id that cannot be formatted: the [ValueError] of the
    f-string is raised inside the [try] block. *)
Lemma unprintable_id_raises_NameError self e pay v g (w : World G) :
  calculate_pay_with usage self e = Ok pay →
  gateway "bank_api" (credit_payload e pay) (bank w) = (Ok v, g) →
  prints (unique_id e) = false →
  process_entity usage gateway module_globals self e w =
    (Raise (mk_exn NameError "name 'APIUnifierException' is not defined"),
     after_call w e pay g).
Proof.
  intros Hp Hg Hi.
  destruct (process_entity_unprintable usage gateway module_globals
              self e pay v g w Hp Hg Hi) as (ex & _ & ->).
  reflexivity.
Qed.

(** With the handler clause naming the class the module defines, a
    [BankAPIUnifierException] from the gateway is reported and the
    iteration ends normally. *)
Lemma repaired_handler_reports self e pay ex g (w : World G) :
  calculate_pay_with usage self e = Ok pay →
  gateway "bank_api" (credit_payload e pay) (bank w) = (Raise ex, g) →
  exn_class ex = BankAPIUnifierException →
  prints (unique_id e) = true →
  process_entity usage gateway repaired_globals self e w =
    (Ok tt, add_log (after_call w e pay g) (ERROR, error_message e ex)).
Proof.
  intros Hp Hg Hc Hi.
  rewrite (process_entity_failed usage gateway repaired_globals
             self e pay ex g w Hp Hg).
  unfold handled.
  change (resolve repaired_globals "APIUnifierException")
    with (Some (BClass BankAPIUnifierException)).
  unfold isinstance. rewrite Hc.
  destruct (error_fstring_cases e ex) as [[_ ->]|[? _]]; [|congruence].
  reflexivity.
Qed.

(** Under that repair the loop reaches every entity, whatever the gateway
    answers, as long as its failures are [BankAPIUnifierException]s. *)
Lemma repaired_loop_issues_all self (l : list Entity) (w : World G) :
  (∀ service data g ex g',
     gateway service data g = (Raise ex, g') →
     exn_class ex = BankAPIUnifierException) →
  Forall (λ e, is_ok (calculate_pay_with usage self e) = true) l →
  Forall (λ e, prints (unique_id e) = true) l →
  (for_each l (process_entity usage gateway repaired_globals self) w).1 = Ok tt
  ∧ issued (for_each l (process_entity usage gateway repaired_globals self) w).2
    = issued w ++ map (request_for usage self) l.
Proof.
  intros Hcls. revert w. induction l as [|e l IH]; intros w Hok Hids.
  - cbn. by rewrite app_nil_r.
  - apply Forall_cons in Hok as [He Hl]. apply Forall_cons in Hids as [Hi Hil].
    destruct (calculate_pay_with usage self e) as [pay|ex] eqn:Hp; [|done].
    assert (∃ w', process_entity usage gateway repaired_globals self e w
                    = (Ok tt, w')
                  ∧ issued w' = issued w ++ [request_for usage self e])
      as (w' & Hstep & Hw').
    { unfold request_for, pay_of. rewrite Hp.
      destruct (gateway "bank_api" (credit_payload e pay) (bank w))
        as [[v|ex] g] eqn:Hg.
      - rewrite (process_entity_credited _ _ _ _ _ _ _ _ _ Hp Hg Hi). eauto.
      - rewrite (repaired_handler_reports _ _ _ _ _ _ Hp Hg (Hcls _ _ _ _ _ Hg) Hi).
        eauto. }
    cbn [for_each]. unfold bind. rewrite Hstep.
    destruct (IH w' Hl Hil) as [Hr Hiss]. split; [exact Hr|].
    rewrite Hiss, Hw'. cbn [map]. by rewrite <- app_assoc.
Qed.

End AsWritten.

(** * The claims on concrete runs *)

(** C1.  The gateway call for the first entity raises the module's
    [BankAPIUnifierException]; the handler clause names
    [APIUnifierException], which nothing binds, so [NameError] leaves
    [process_payroll]: no error record is written and the second entity is
    never reached. *)
Theorem gateway_failure_leaves_process_payroll :
  let run :=
    @process_payroll_with repr_integral unit metered_usage debit_gateway
      module_globals (start [ai_1; ai_2] tt) in
  calculate_pay_with metered_usage (AIPayroll.__init__ [ai_1; ai_2]) ai_1
    = Ok (VFloat (S754_finite false 7036874417766400 (-46)))
  ∧ (@debit_gateway unit "bank_api"
       (credit_payload ai_1 (VFloat (S754_finite false 7036874417766400 (-46))))
       tt).1
    = Raise (mk_exn BankAPIUnifierException "Unrecognized action: debit")
  ∧ run.1 = Raise (mk_exn NameError "name 'APIUnifierException' is not defined")
  ∧ log run.2 = []
  ∧ map (λ rq : Request, rq.2 !! "unique_id") (issued run.2)
    = [Some (VStr "ai-1")].
Proof. vm_compute. repeat split. Qed.

(** C2, as stated, fails on the script as written: the usage method
    returns [None], [calculate_pay] raises [TypeError] outside the [try]
    statement, and no request is issued for a collection of one entity. *)
Lemma stub_usage_issues_no_request :
  let run := @process_payroll repr_integral unit (start [ai_1] tt) in
  run.1 = Raise (mk_exn TypeError
                   "unsupported operand type(s) for *: 'NoneType' and 'float'")
  ∧ issued run.2 = []
  ∧ length (issued run.2) ≠ length [ai_1].
Proof. vm_compute. repeat split. discriminate. Qed.

Lemma process_payroll_one_request_per_entity_witness :
  let entities := [ai_1; ai_2] in
  let run :=
    @process_payroll_with repr_integral unit metered_usage
      (@APIUnifier.callAPI repr_integral unit) module_globals (start entities tt) in
  Forall (λ e, is_ok (calculate_pay_with metered_usage
                        (AIPayroll.__init__ entities) e) = true) entities
  ∧ Forall (λ e, prints (unique_id e) = true) entities
  ∧ run.1 = Ok VNone
  ∧ length (issued run.2) = length entities.
Proof.
  intros entities run.
  assert (Hok : Forall (λ e, is_ok (calculate_pay_with metered_usage
                        (AIPayroll.__init__ entities) e) = true) entities)
    by (repeat constructor).
  assert (Hids : Forall (λ e, prints (unique_id e) = true) entities)
    by (repeat constructor).
  split; [exact Hok|]. split; [exact Hids|].
  destruct (@process_payroll_one_request_per_entity repr_integral unit
              metered_usage module_globals entities tt Hok Hids)
    as (Hr & _ & Hn).
  split; [exact Hr|exact Hn].
Defined.

(** C3, as stated, fails where the conversion overflows: 2^1024 is a
    non-negative number, and [calculate_pay] raises [OverflowError] on
    it instead of returning. *)
Lemma calculate_pay_overflows :
  let big := mk_entity (VStr "ai-5")
               {[ "data_usage_bits" := VInt (2 ^ 1024) ]} in
  let self := AIPayroll.__init__ [big] in
  metered_usage self big = Ok (VInt (2 ^ 1024))
  ∧ nonneg_number (VInt (2 ^ 1024)) = true
  ∧ calculate_pay_with metered_usage self big
    = Raise (mk_exn OverflowError "int too large to convert to float")
  ∧ ¬ ∃ v, calculate_pay_with metered_usage self big = Ok v.
Proof.
  intros big self.
  assert (Hraise : calculate_pay_with metered_usage self big
    = Raise (mk_exn OverflowError "int too large to convert to float"))
    by (vm_compute; reflexivity).
  split; [vm_compute; reflexivity|]. split; [vm_compute; reflexivity|].
  split; [exact Hraise|].
  intros [v Hv]. rewrite Hraise in Hv. discriminate Hv.
Qed.

Lemma calculate_pay_in_float_range_witness :
  let self := AIPayroll.__init__ [ai_1] in
  metered_usage self ai_1 = Ok (VInt 100)
  ∧ nonneg_number (VInt 100) = true
  ∧ converts_to_float (VInt 100) = true
  ∧ ∃ f, calculate_pay_with metered_usage self ai_1 = Ok (VFloat f)
         ∧ float_is_int f 100.
Proof.
  intros self. split; [reflexivity|]. split; [reflexivity|].
  split; [vm_compute; reflexivity|].
  destruct (calculate_pay_in_float_range metered_usage self ai_1 (VInt 100)
              eq_refl eq_refl ltac:(vm_compute; reflexivity))
    as (f & Hf & _ & _ & _ & Hex).
  exists f. split; [exact Hf|]. apply (Hex 100 eq_refl). reflexivity.
Defined.

Lemma callAPI_credit_succeeds_witness :
  let data : dict := credit_payload ai_1 (VInt 100) in
  data !! "action" = Some (VStr "credit")
  ∧ @APIUnifier.callAPI repr_integral unit "bank_api" data tt = (Ok VNone, tt).
Proof.
  intros data. split; [reflexivity|].
  apply (@callAPI_credit_succeeds repr_integral unit data tt). reflexivity.
Defined.

Lemma callAPI_other_action_raises_witness :
  let data : dict := <["action" := VStr "debit"]> (credit_payload ai_2 (VInt 0)) in
  data !! "action" = Some (VStr "debit")
  ∧ "debit" ≠ "credit"
  ∧ @APIUnifier.callAPI repr_integral unit "bank_api" data tt =
      (Raise (mk_exn BankAPIUnifierException "Unrecognized action: debit"), tt).
Proof.
  intros data. split; [reflexivity|]. split; [discriminate|].
  refine (proj1 (@callAPI_other_action_raises repr_integral unit data "debit" tt _ _));
    [reflexivity|discriminate].
Defined.

Lemma callAPI_unknown_service_none_witness :
  "crypto_api" ≠ "bank_api"
  ∧ @APIUnifier.callAPI repr_integral unit "crypto_api"
      (credit_payload ai_1 (VInt 100)) tt = (Ok VNone, tt).
Proof.
  split; [discriminate|].
  apply (@callAPI_unknown_service_none repr_integral unit). discriminate.
Defined.

Lemma callAPI_missing_action_keyerror_witness :
  let data : dict := {[ "unique_id" := VStr "ai-1"; "amount" := VInt 100 ]} in
  data !! "action" = None
  ∧ @APIUnifier.callAPI repr_integral unit "bank_api" data tt =
      (Raise (mk_exn KeyError "'action'"), tt).
Proof.
  intros data. split; [reflexivity|].
  exact (proj1 (@callAPI_missing_action_keyerror repr_integral unit data tt
                  eq_refl)).
Defined.

Lemma callAPI_depends_on_action_only_witness :
  let d1 : dict := credit_payload ai_1 (VInt 100) in
  let d2 : dict := credit_payload ai_2 (VInt 0) in
  d1 !! "action" = d2 !! "action"
  ∧ d1 ≠ d2
  ∧ (@APIUnifier.callAPI repr_integral unit "bank_api" d1 tt).1
    = (@APIUnifier.callAPI repr_integral bool "bank_api" d2 true).1.
Proof.
  intros d1 d2. split; [reflexivity|]. split.
  - intros Heq. apply (f_equal (λ d : dict, d !! "amount")) in Heq.
    discriminate Heq.
  - exact (proj1 (@callAPI_depends_on_action_only repr_integral unit bool
                    "bank_api" d1 d2 tt true eq_refl)).
Defined.

Lemma log_records_follow_templates_witness :
  let entities := [ai_1; ai_2] in
  let r := (INFO, "Successfully credited $0.0 to AI entity ai-2.") in
  r ∈ log (@process_payroll_with repr_integral unit metered_usage
             (@APIUnifier.callAPI repr_integral unit) module_globals (start entities tt)).2
  ∧ ∃ e pay, e ∈ entities
      ∧ calculate_pay_with metered_usage (AIPayroll.__init__ entities) e = Ok pay
      ∧ (r = (INFO, "Successfully credited $" +:+ @str repr_integral pay
                      +:+ " to AI entity " +:+ @str repr_integral (unique_id e)
                      +:+ ".")
         ∨ ∃ ex, r = (ERROR, "Failed to process payroll for AI entity "
                               +:+ @str repr_integral (unique_id e) +:+ ": "
                               +:+ exn_detail ex)).
Proof.
  intros entities r.
  assert (Hr : r ∈ log (@process_payroll_with repr_integral unit metered_usage
             (@APIUnifier.callAPI repr_integral unit) module_globals (start entities tt)).2)
    by (vm_compute; right; left).
  split; [exact Hr|].
  destruct (@log_records_follow_templates repr_integral unit metered_usage
              (@APIUnifier.callAPI repr_integral unit) module_globals entities tt r Hr)
    as (e & pay & g1 & g2 & He & Hp & [(v & _ & Hm)|(ex & _ & Hm)]);
    exists e, pay; (split; [exact He|]); (split; [exact Hp|]);
    [left; exact Hm|right; exists ex; exact Hm].
Defined.

(** * Scenarios *)

(** Two entities with usage 100 and 0: both are credited and reported. *)
Example scenario_credits :
  let run :=
    @process_payroll_with repr_integral unit metered_usage
      (@APIUnifier.callAPI repr_integral unit) module_globals
      (start [ai_1; ai_2] tt) in
  run.1 = Ok VNone
  ∧ log run.2 =
      [ (INFO, "Successfully credited $100.0 to AI entity ai-1.");
        (INFO, "Successfully credited $0.0 to AI entity ai-2.") ]
  ∧ map fst (issued run.2) = ["bank_api"; "bank_api"]
  ∧ map (λ rq : Request, rq.2 !! "unique_id") (issued run.2)
    = [Some (VStr "ai-1"); Some (VStr "ai-2")].
Proof. vm_compute. repeat split. Qed.

(** With the handler clause repaired, a rejected request is reported and
    the loop goes on. *)
Example scenario_rejected_repaired :
  let run :=
    @process_payroll_with repr_integral unit metered_usage debit_gateway
      repaired_globals (start [ai_1; ai_2] tt) in
  run.1 = Ok VNone
  ∧ log run.2 =
      [ (ERROR, "Failed to process payroll for AI entity ai-1: Unrecognized action: debit");
        (ERROR, "Failed to process payroll for AI entity ai-2: Unrecognized action: debit") ]
  ∧ length (issued run.2) = 2%nat.
Proof. vm_compute. repeat split. Qed.

(** An id that cannot be formatted: the request goes out, the f-string
    of the record raises [ValueError] inside the [try] block, and the run
    ends there; as written with [NameError], and with the handler clause
    repaired with the [ValueError] itself, which the clause does not
    name. *)
Example scenario_unprintable_id :
  let run :=
    @process_payroll_with repr_integral unit metered_usage
      (@APIUnifier.callAPI repr_integral unit) module_globals
      (start [ai_long; ai_2] tt) in
  let run' :=
    @process_payroll_with repr_integral unit metered_usage
      (@APIUnifier.callAPI repr_integral unit) repaired_globals
      (start [ai_long; ai_2] tt) in
  run.1 = Raise (mk_exn NameError "name 'APIUnifierException' is not defined")
  ∧ log run.2 = []
  ∧ length (issued run.2) = 1%nat
  ∧ (∃ ex, run'.1 = Raise ex ∧ exn_class ex = ValueError)
  ∧ log run'.2 = []
  ∧ length (issued run'.2) = 1%nat.
Proof. vm_compute. repeat split. eexists. split; reflexivity. Qed.

(** An unknown service is a silent no-op. *)
Example scenario_unknown_service :
  @APIUnifier.callAPI repr_integral unit "crypto_api" ∅ tt = (Ok VNone, tt).
Proof. reflexivity. Qed.

(** * Runs against the gateway of the module *)

Section ModuleGateway.
Context `{FloatRepr}.
Context {G : Type}.
Variable usage : AIPayroll.t → Entity → result PyVal.

(** With the module's gateway the request never fails, so an iteration
    depends on [calculate_pay] alone and never looks at the globals. *)
Lemma process_entity_module globals self e (w : World G) :
  prints (unique_id e) = true →
  process_entity usage APIUnifier.callAPI globals self e w =
    match calculate_pay_with usage self e with
    | Ok pay =>
        (Ok tt, add_log (after_call w e pay (bank w)) (INFO, info_message pay e))
    | Raise ex => (Raise ex, w)
    end.
Proof.
  intros Hi. destruct (calculate_pay_with usage self e) as [pay|ex] eqn:Hp.
  - apply (process_entity_credited _ _ _ _ _ _ VNone _ _ Hp); [|exact Hi].
    by rewrite (callAPI_bank_present _ _ _ (credit_payload_action e pay)).
  - by apply process_entity_no_pay.
Qed.

Lemma for_each_module globals self (l : list Entity) (w : World G) :
  Forall (λ e, prints (unique_id e) = true) l →
  for_each l (process_entity usage APIUnifier.callAPI globals self) w =
    (outcome_of (paid_prefix usage self l).2,
     mk_world (self_of w)
       (log w ++ map (info_record usage self) (paid_prefix usage self l).1)
       (issued w ++ map (request_for usage self) (paid_prefix usage self l).1)
       (bank w)).
Proof.
  intros Hids. revert w. induction Hids as [|e l Hi Hids IH]; intros w.
  - cbn. rewrite !app_nil_r. by destruct w.
  - cbn [for_each paid_prefix]. unfold bind.
    rewrite (process_entity_module _ _ _ _ Hi).
    unfold info_record, request_for, pay_of in *.
    destruct (calculate_pay_with usage self e) as [pay|ex] eqn:Hp.
    + rewrite IH. destruct (paid_prefix usage self l) as [paid failure].
      cbn [fst snd map]. rewrite Hp.
      unfold add_log, after_call. cbn [self_of log issued bank].
      by rewrite <- !app_assoc.
    + cbn. rewrite !app_nil_r. by destruct w.
Qed.

(** The loop over a concatenation runs the first part, then the
    second if the first ended normally. *)
Lemma for_each_app {S A} (body : A → M S unit) (l1 l2 : list A) (s : S) :
  for_each (l1 ++ l2) body s =
    match for_each l1 body s with
    | (Ok _, s') => for_each l2 body s'
    | (Raise ex, s') => (Raise ex, s')
    end.
Proof.
  revert s. induction l1 as [|x l1 IH]; intros s; [done|].
  cbn [app for_each]. unfold bind.
  destruct (body x s) as [[[]|ex] s1]; [apply IH|done].
Qed.

(** X2. [calculate_pay] runs outside the [try] statement: when it raises
    on an entity, that exception leaves [process_payroll] as it is.  The
    entities before it, when their pay and their ids are in order, have
    been credited and reported, in order; the entity itself and those
    after it get neither a request nor a record. *)
Theorem pay_failure_ends_the_run
    (globals : namespace) (pre post : list Entity) (e : Entity) (ex : exn)
    (g : G) :
  Forall (λ x, is_ok (calculate_pay_with usage
                        (AIPayroll.__init__ (pre ++ e :: post)) x) = true) pre →
  Forall (λ x, prints (unique_id x) = true) pre →
  calculate_pay_with usage (AIPayroll.__init__ (pre ++ e :: post)) e
    = Raise ex →
  let self := AIPayroll.__init__ (pre ++ e :: post) in
  let run := process_payroll_with usage APIUnifier.callAPI globals
               (start (pre ++ e :: post) g) in
  run.1 = Raise ex
  ∧ issued run.2 = map (request_for usage self) pre
  ∧ log run.2 = map (info_record usage self) pre.
Proof.
  intros Hpre Hids He self run. subst run.
  rewrite process_payroll_run.
  cbn [start self_of AIPayroll.__init__ ai_entities]. fold self.
  rewrite for_each_app, (for_each_credits usage globals self pre _ Hpre Hids).
  cbn [for_each]. unfold bind.
  rewrite (process_entity_no_pay _ _ _ _ _ _ _ He). done.
Qed.

(** X5. Against the module's gateway, and with ids that can be
    formatted, the handler is never entered: a run does not depend on
    what the globals bind (the unbound [APIUnifierException] included),
    every record it logs is at level INFO, and the state behind the
    gateway is left as it was. *)
Theorem module_gateway_never_reaches_handler
    (globals globals' : namespace) (w : World G) :
  Forall (λ e, prints (unique_id e) = true) (ai_entities (self_of w)) →
  process_payroll_with usage APIUnifier.callAPI globals w
    = process_payroll_with usage APIUnifier.callAPI globals' w
  ∧ bank (process_payroll_with usage APIUnifier.callAPI globals w).2 = bank w
  ∧ ∃ new,
      log (process_payroll_with usage APIUnifier.callAPI globals w).2
        = log w ++ new
      ∧ Forall (λ r : LogRecord, r.1 = INFO) new.
Proof.
  intros Hids. rewrite !process_payroll_run, !for_each_module by done.
  destruct (paid_prefix usage (self_of w) (ai_entities (self_of w)))
    as [paid [ex|]]; cbn [outcome_of fst snd bank log];
    (split; [done|]); (split; [done|]);
    (eexists; split; [done|]); apply Forall_forall;
    intros r Hr; apply list_elem_of_In, in_map_iff in Hr as [x [<- _]]; done.
Qed.

(** X11. Nothing remembers what has been paid: when a first run of
    [process_payroll] went through (the pay and the id of every entity
    are in order), a second run on the same processor issues every
    request again and logs every record again. *)
Theorem second_run_pays_again (globals : namespace)
    (entities : list Entity) (g : G) :
  Forall (λ e, is_ok (calculate_pay_with usage
                        (AIPayroll.__init__ entities) e) = true) entities →
  Forall (λ e, prints (unique_id e) = true) entities →
  let self := AIPayroll.__init__ entities in
  let run1 := process_payroll_with usage APIUnifier.callAPI globals
                (start entities g) in
  let run2 := process_payroll_with usage APIUnifier.callAPI globals run1.2 in
  run2.1 = Ok VNone
  ∧ issued run2.2 = map (request_for usage self) entities
                      ++ map (request_for usage self) entities
  ∧ log run2.2 = map (info_record usage self) entities
                   ++ map (info_record usage self) entities.
Proof.
  intros Hok Hids self run1 run2.
  assert (Hrun : ∀ w : World G, self_of w = self →
    process_payroll_with usage APIUnifier.callAPI globals w =
      (Ok VNone,
       mk_world self (log w ++ map (info_record usage self) entities)
         (issued w ++ map (request_for usage self) entities) (bank w))).
  { intros w Hw. rewrite process_payroll_run, Hw.
    cbn [self ai_entities AIPayroll.__init__].
    rewrite (for_each_credits usage globals _ entities w Hok Hids).
    by rewrite Hw. }
  subst run2 run1. rewrite (Hrun (start entities g)) by done.
  rewrite Hrun by done. done.
Qed.

End ModuleGateway.

(** X1. The script as written pays nobody: [calculate_data_usage_in_bits]
    returns [None], so on any collection that is not empty
    [process_payroll] raises [TypeError] at the first entity, before any
    request or log record; on the empty collection it returns [None].
    Either way the state is what it was. *)
Theorem process_payroll_as_written `{FloatRepr} {G}
    (entities : list Entity) (g : G) :
  process_payroll (start entities g) =
    (match entities with
     | [] => Ok VNone
     | _ :: _ =>
         Raise (mk_exn TypeError
                  "unsupported operand type(s) for *: 'NoneType' and 'float'")
     end,
     start entities g).
Proof.
  unfold process_payroll. rewrite process_payroll_run.
  cbn [start self_of AIPayroll.__init__ ai_entities].
  destruct entities as [|e l]; [reflexivity|].
  cbn [for_each]. unfold bind.
  by rewrite (process_entity_no_pay _ _ _ _ _ _ _
                (calculate_pay_stub_raises _ e)).
Qed.

(** * Runs against any gateway *)

Section AnyGateway.
Context `{FloatRepr}.
Context {G : Type}.
Variable usage : AIPayroll.t → Entity → result PyVal.
Variable gateway : string → dict → M G PyVal.
Variable globals : namespace.

(** The loop reaches the entities in order: what it issued is the
    requests of the first [n], one each; and it logs at most one record
    per request. *)
Lemma for_each_trace self (l : list Entity) (w : World G) :
  ∃ n : nat,
    (n ≤ length l)%nat
    ∧ issued (for_each l (process_entity usage gateway globals self) w).2
      = issued w ++ map (request_for usage self) (take n l)
    ∧ Forall (λ e, is_ok (calculate_pay_with usage self e) = true) (take n l)
    ∧ (length (log (for_each l (process_entity usage gateway globals self) w).2)
       ≤ length (log w) + n)%nat
    ∧ (is_ok (for_each l (process_entity usage gateway globals self) w).1 = true →
       n = length l
       ∧ length (log (for_each l (process_entity usage gateway globals self) w).2)
         = (length (log w) + length l)%nat).
Proof.
  revert w. induction l as [|e l IH]; intros w.
  - exists 0%nat. cbn. rewrite app_nil_r. repeat split; try done; lia.
  - pose proof (process_entity_step usage gateway globals self e w) as Hstep.
    cbn [for_each]. unfold bind.
    destruct (process_entity usage gateway globals self e w) as [r w1].
    cbn [fst snd] in Hstep.
    assert (Hnext : ∀ pay, calculate_pay_with usage self e = Ok pay →
      issued w1 = issued w ++ [("bank_api", credit_payload e pay)] →
      (length (log w1) ≤ length (log w) + 1)%nat →
      ∃ n : nat, (n ≤ length (e :: l))%nat
        ∧ issued (for_each l (process_entity usage gateway globals self) w1).2
          = issued w ++ map (request_for usage self) (take n (e :: l))
        ∧ Forall (λ e, is_ok (calculate_pay_with usage self e) = true)
            (take n (e :: l))
        ∧ (length (log (for_each l (process_entity usage gateway globals self) w1).2)
           ≤ length (log w) + n)%nat
        ∧ (is_ok (for_each l (process_entity usage gateway globals self) w1).1 = true →
           length (log w1) = (length (log w) + 1)%nat →
           n = length (e :: l)
           ∧ length (log (for_each l (process_entity usage gateway globals self) w1).2)
             = (length (log w) + length (e :: l))%nat)).
    { intros pay Hp Hi Hlen.
      destruct (IH w1) as (n & Hn & Hiss & Hok & Hlog & Hall).
      exists (S n). cbn [take map length].
      unfold request_for at 1, pay_of. rewrite Hp.
      rewrite Hiss, Hi, <- app_assoc. cbn [app].
      split; [lia|]. split; [done|]. split.
      { apply Forall_cons. split; [by rewrite Hp|done]. }
      split; [lia|]. intros Hr Hw1. destruct (Hall Hr) as [-> Hl]. lia. }
    inversion Hstep as [ex Hp|pay v g Hp Hg|pay ex g Hp Hg|pay ex ex' g Hp Hg];
      subst.
    + exists 0%nat. cbn. rewrite app_nil_r. repeat split; try done; lia.
    + destruct (Hnext pay Hp) as (n & Hn & Hiss & Hok & Hlog & Hall).
      { done. }
      { cbn [add_log after_call log]. rewrite length_app. cbn. lia. }
      exists n. repeat split; try done.
      * by apply Hall; [|cbn [add_log log]; rewrite length_app; cbn; lia].
      * by apply Hall; [|cbn [add_log log]; rewrite length_app; cbn; lia].
    + destruct (Hnext pay Hp) as (n & Hn & Hiss & Hok & Hlog & Hall).
      { done. }
      { cbn [add_log after_call log]. rewrite length_app. cbn. lia. }
      exists n. repeat split; try done.
      * by apply Hall; [|cbn [add_log log]; rewrite length_app; cbn; lia].
      * by apply Hall; [|cbn [add_log log]; rewrite length_app; cbn; lia].
    + exists 1%nat. cbn [take map length fst snd is_ok after_call issued log].
      unfold request_for, pay_of. rewrite Hp.
      split; [lia|]. split; [done|]. split.
      { apply Forall_cons. split; [by rewrite Hp|done]. }
      split; [lia|]. done.
Qed.

(** An exception that ends the loop was raised by one of its
    iterations. *)
Lemma for_each_raise_inv {S A} (body : A → M S unit) (l : list A) (s : S) ex :
  (for_each l body s).1 = Raise ex →
  ∃ x s', x ∈ l ∧ (body x s').1 = Raise ex.
Proof.
  revert s. induction l as [|x l IH]; intros s; [done|].
  cbn [for_each]. unfold bind.
  destruct (body x s) as [[[]|ex'] s1] eqn:Hb.
  - intros (y & s' & Hy & Hr)%IH. exists y, s'. split; [by right|done].
  - intros [= ->]. exists x, s. split; [by left|]. by rewrite Hb.
Qed.

(** X3. Whatever the usage method, the gateway and the globals do, the
    requests [process_payroll] has issued when it ends are those of the
    first [n] entities of the collection, one each and in order: no
    entity is skipped, repeated or overtaken.  No record is logged
    without a request: there are at most as many records as requests. *)
Theorem issued_requests_are_a_prefix (entities : list Entity) (g : G) :
  let self := AIPayroll.__init__ entities in
  let run := process_payroll_with usage gateway globals (start entities g) in
  ∃ n : nat,
    (n ≤ length entities)%nat
    ∧ issued run.2 = map (request_for usage self) (take n entities)
    ∧ (length (log run.2) ≤ length (issued run.2))%nat.
Proof.
  intros self run. subst run. rewrite process_payroll_state.
  change (self_of (start entities g)) with self.
  change (ai_entities self) with entities.
  destruct (for_each_trace self entities (start entities g))
    as (n & Hn & Hiss & _ & Hlog & _).
  exists n. rewrite Hiss. unfold start in *. cbn [issued log app length] in *.
  split; [done|]. split; [done|]. rewrite length_map, length_take. lia.
Qed.

(** X4. When [process_payroll] returns, it returns [None], and every
    entity of the collection got exactly one request, in order, and
    exactly one log record; in particular [calculate_pay] returned on
    each of them. *)
Theorem normal_return_covers_every_entity
    (entities : list Entity) (g : G) (v : PyVal) :
  (process_payroll_with usage gateway globals (start entities g)).1 = Ok v →
  let self := AIPayroll.__init__ entities in
  let run := process_payroll_with usage gateway globals (start entities g) in
  v = VNone
  ∧ issued run.2 = map (request_for usage self) entities
  ∧ length (log run.2) = length entities
  ∧ Forall (λ e, is_ok (calculate_pay_with usage self e) = true) entities.
Proof.
  intros Hret self run. subst run. revert Hret.
  rewrite process_payroll_run.
  change (self_of (start entities g)) with self.
  change (ai_entities self) with entities.
  destruct (for_each_trace self entities (start entities g))
    as (n & Hn & Hiss & Hok & _ & Hall).
  destruct (for_each entities _ _) as [[[]|ex] w']; [|done].
  intros [= <-]. cbn [fst snd is_ok issued log app length] in *.
  destruct Hall as [-> Hlen]; [done|].
  rewrite firstn_all in Hiss, Hok. done.
Qed.

(** X12. Every request [process_payroll] issues goes to [bank_api] and
    is a credit for an entity of the collection: its payload holds the
    action [credit], that entity's [unique_id], the pay [calculate_pay]
    returned for it, and no other key.  So the gateway's lookup of
    [action] cannot fail on a request of the processor. *)
Theorem every_request_is_a_credit
    (entities : list Entity) (g : G) (rq : Request) :
  rq ∈ issued (process_payroll_with usage gateway globals
                 (start entities g)).2 →
  ∃ e pay,
    e ∈ entities
    ∧ calculate_pay_with usage (AIPayroll.__init__ entities) e = Ok pay
    ∧ rq.1 = "bank_api"
    ∧ rq.2 !! "action" = Some (VStr "credit")
    ∧ rq.2 !! "unique_id" = Some (unique_id e)
    ∧ rq.2 !! "amount" = Some pay
    ∧ dom rq.2 = ({[ "action"; "unique_id"; "amount" ]} : gset string).
Proof.
  set (self := AIPayroll.__init__ entities).
  rewrite process_payroll_state.
  change (self_of (start entities g)) with self.
  change (ai_entities self) with entities.
  destruct (for_each_trace self entities (start entities g))
    as (n & _ & -> & Hok & _).
  cbn [issued app]. intros Hrq.
  apply list_elem_of_In, in_map_iff in Hrq as (e & <- & He).
  apply list_elem_of_In in He.
  assert (e ∈ entities) as Hin.
  { rewrite <- (take_drop n entities). apply elem_of_app. by left. }
  eapply Forall_forall in Hok; [|exact He].
  unfold request_for, pay_of.
  destruct (calculate_pay_with usage self e) as [pay|] eqn:Hp; [|done].
  exists e, pay. cbn [fst snd]. unfold credit_payload.
  repeat split; done.
Qed.

(** X6. As the module's globals stand, whatever the gateway does:
    [process_payroll] never logs a record at level ERROR, and an
    exception that leaves it is either one [calculate_pay] raised on an
    entity of the collection or the [NameError] of the handler clause. *)
Theorem as_written_never_reports_failure
    (entities : list Entity) (g : G) :
  let run := process_payroll_with usage gateway module_globals
               (start entities g) in
  (∀ r : LogRecord, r ∈ log run.2 → r.1 = INFO)
  ∧ (∀ ex, run.1 = Raise ex →
       ex = mk_exn NameError "name 'APIUnifierException' is not defined"
       ∨ ∃ e, e ∈ entities
              ∧ calculate_pay_with usage (AIPayroll.__init__ entities) e
                = Raise ex).
Proof.
  intros run. subst run. set (self := AIPayroll.__init__ entities).
  assert (Hbody : ∀ e (w : World G),
    (∃ ex, calculate_pay_with usage self e = Raise ex
           ∧ process_entity usage gateway module_globals self e w
             = (Raise ex, w))
    ∨ (∃ w', process_entity usage gateway module_globals self e w
               = (Raise (mk_exn NameError
                           "name 'APIUnifierException' is not defined"), w')
             ∧ log w' = log w)
    ∨ (∃ w' msg, process_entity usage gateway module_globals self e w
                   = (Ok tt, w')
                 ∧ log w' = log w ++ [(INFO, msg)])).
  { intros e w.
    destruct (calculate_pay_with usage self e) as [pay|ex] eqn:Hp.
    - destruct (gateway "bank_api" (credit_payload e pay) (bank w))
        as [[v|ex] g'] eqn:Hg.
      + destruct (prints (unique_id e)) eqn:Hi.
        * right; right.
          rewrite (process_entity_credited _ _ _ _ _ _ _ _ _ Hp Hg Hi). eauto.
        * right; left.
          rewrite (unprintable_id_raises_NameError _ _ _ _ _ _ _ _ Hp Hg Hi).
          eauto.
      + right; left.
        rewrite (gateway_failure_raises_NameError _ _ _ _ _ _ _ _ Hp Hg).
        eauto.
    - left. rewrite (process_entity_no_pay _ _ _ _ _ _ _ Hp). eauto. }
  split.
  - rewrite process_payroll_state.
    change (self_of (start entities g)) with self.
    change (ai_entities self) with entities.
    assert (∃ new,
      log (for_each entities (process_entity usage gateway module_globals self)
             (start entities g)).2
        = log (start entities g) ++ new
      ∧ Forall (λ r : LogRecord, r.1 = INFO) new) as (new & -> & Hnew).
    { apply (for_each_respects
               (λ s s' : World G, ∃ new, log s' = log s ++ new
                  ∧ Forall (λ r : LogRecord, r.1 = INFO) new)).
      - intros s. exists []. by rewrite app_nil_r.
      - intros s1 s2 s3 (n1 & E1 & F1) (n2 & E2 & F2). exists (n1 ++ n2).
        rewrite E2, E1, app_assoc. split; [done|]. by apply Forall_app.
      - intros e s _.
        destruct (Hbody e s) as [(ex & _ & ->)|[(w' & -> & Hl)|(w' & msg & -> & Hl)]];
          cbn [snd].
        + exists []. by rewrite app_nil_r.
        + exists []. by rewrite app_nil_r.
        + exists [(INFO, msg)]. split; [done|]. by apply Forall_singleton. }
    cbn [log app]. intros r Hr. by eapply Forall_forall in Hnew.
  - intros ex. rewrite process_payroll_run.
    change (self_of (start entities g)) with self.
    change (ai_entities self) with entities.
    destruct (for_each entities _ _) as [[[]|ex'] w'] eqn:Hrun; [done|].
    intros [= ->].
    destruct (for_each_raise_inv
                (process_entity usage gateway module_globals self)
                entities (start entities g) ex)
      as (e & s & He & Hr); [by rewrite Hrun|].
    destruct (Hbody e s) as [(ex1 & Hp & Hpe)|[(w1 & Hpe & _)|(w1 & msg & Hpe & _)]];
      rewrite Hpe in Hr; cbn [fst] in Hr; simplify_eq.
    + right. eauto.
    + by left.
Qed.

End AnyGateway.

(** * More on the gateway *)

Section GatewayExtras.
Context `{FloatRepr}.
Context {G : Type}.

Lemma eq_str_true (v : PyVal) (s : string) :
  eq_str v s = true ↔ v = VStr s.
Proof.
  destruct v as [|t|z|f]; cbn [eq_str]; try (split; [done|congruence]).
  rewrite String.eqb_eq. split; congruence.
Qed.

(** X7. [callAPI] returns exactly when the service is not [bank_api] or
    the payload's [action] is the string [credit]; and whenever it
    returns, the value is [None]: success carries no indicator, and an
    unknown service cannot be told from a credit that went through. *)
Theorem callAPI_returns_iff (service : string) (data : dict) (g : G) :
  ((∃ v g', APIUnifier.callAPI service data g = (Ok v, g'))
   ↔ (service ≠ "bank_api" ∨ data !! "action" = Some (VStr "credit")))
  ∧ (∀ v g', APIUnifier.callAPI service data g = (Ok v, g') →
             v = VNone ∧ g' = g).
Proof.
  destruct (decide (service = "bank_api")) as [->|Hs].
  - destruct (data !! "action") as [a|] eqn:Ha.
    + rewrite (callAPI_bank_present _ _ _ Ha).
      destruct (eq_str a "credit") eqn:Hc.
      * apply eq_str_true in Hc as ->. split; [|by intros v g' [= <- <-]].
        split; [by right|eauto].
      * destruct (format a) as [text|ex]; (split; [|done]);
          (split; [by intros (v & g' & [=])|]);
          (intros [?|[= ->]]; [done|by cbn in Hc]).
    + rewrite (callAPI_bank_absent _ _ Ha). split; [|done].
      split; [by intros (v & g' & [=])|]. by intros [?|?].
  - rewrite (callAPI_other_service _ _ _ Hs).
    split; [|by intros v g' [= <- <-]]. split; [by left|eauto].
Qed.

(** X8. The comparison with [credit] is by value, so an [action] that is
    not a string at all ([None], a number) is rejected like an unknown
    string: [BankAPIUnifierException], whose detail shows the value as an
    f-string prints it, as in [Unrecognized action: None].  The one
    exception is an [int] of more than 4300 digits: building the detail
    fails, and the call raises [ValueError] instead. *)
Theorem callAPI_rejects_any_other_value (data : dict) (v : PyVal) (g : G) :
  data !! "action" = Some v →
  v ≠ VStr "credit" →
  (prints v = true →
   APIUnifier.callAPI "bank_api" data g =
     (Raise (mk_exn BankAPIUnifierException
               ("Unrecognized action: " +:+ str v)), g))
  ∧ (prints v = false →
     ∃ ex, APIUnifier.callAPI "bank_api" data g = (Raise ex, g)
           ∧ exn_class ex = ValueError).
Proof.
  intros Ha Hv. rewrite (callAPI_bank_present _ _ _ Ha).
  destruct (eq_str v "credit") eqn:Hc; [by apply eq_str_true in Hc|].
  destruct (format_cases v) as [[Hp ->]|[Hp (ex & -> & Hcls)]];
    split; intros Hp'; try congruence; eauto.
Qed.

End GatewayExtras.

(** * More on pay *)

Lemma binary_normalize_small_neg (p : positive) :
  Z.pos p < 2 ^ 53 →
  binary_normalize prec emax (Z.neg p) 0 false = SFopp (float_of_small p).
Proof.
  intros Hp. pose proof (float_of_small_bounded p Hp) as Hv.
  apply digits2_pos_bound in Hp.
  unfold binary_normalize, binary_round, shl_align, float_of_small in *.
  replace (fexp prec emax (Z.pos (digits2_pos p) + 0) - 0)
    with (- (53 - Z.pos (digits2_pos p)))
    by (unfold fexp, emin, prec, emax; lia).
  destruct (53 - Z.pos (digits2_pos p)) as [|k|k] eqn:Hk; cbn [Z.opp SFopp negb].
  - by apply binary_round_aux_canonical.
  - replace (fexp prec emax (Z.pos (digits2_pos p) + 0)) with (Z.neg k)
      by (unfold fexp, emin, prec, emax; lia).
    by apply binary_round_aux_canonical.
  - lia.
Qed.

(** Conversion of an [int] of either sign whose magnitude is below 2^53:
    it succeeds, and the float is the integer. *)
Lemma float_of_int_exact (z : Z) :
  - 2 ^ 53 < z < 2 ^ 53 →
  ∃ f, float_of_int z = Ok f
       ∧ valid_binary prec emax f = true ∧ float_is_int f z.
Proof.
  intros [Hlo Hhi]. destruct z as [|p|p].
  - apply float_of_int_small. lia.
  - apply float_of_int_small. lia.
  - assert (Hp : Z.pos p < 2 ^ 53) by lia.
    unfold float_of_int. rewrite (binary_normalize_small_neg p Hp).
    pose proof (float_of_small_bounded p Hp) as Hv.
    pose proof (float_of_small_exact p) as Hex.
    exists (SFopp (float_of_small p)).
    unfold float_of_small in *.
    destruct (53 - Z.pos (digits2_pos p)) as [|k|k];
      cbn [SFopp negb valid_binary float_is_int cond_Zopp] in *;
      (split; [done|]); (split; [done|]);
      destruct Hex as [[He Hm]|[He Hm]]; [left|right|left|right|left|right];
      (split; [done|]); lia.
Qed.

Section PayExtras.
Variable usage : AIPayroll.t → Entity → result PyVal.

(** X10. There is no guard on the sign of the usage: for a float of
    either sign (NaN and the infinities included) [calculate_pay] returns
    that float, and for an [int] of either sign with magnitude below 2^53
    it returns the float equal to it; a negative usage yields a negative
    pay. *)
Theorem calculate_pay_keeps_sign
    (self : AIPayroll.t) (E : Entity) (d : PyVal) :
  usage self E = Ok d →
  (∀ f, d = VFloat f → valid_binary prec emax f = true →
        calculate_pay_with usage self E = Ok (VFloat f))
  ∧ (∀ z, d = VInt z → - 2 ^ 53 < z < 2 ^ 53 →
          ∃ f, calculate_pay_with usage self E = Ok (VFloat f)
               ∧ float_is_int f z).
Proof.
  intros Hd. unfold calculate_pay_with. rewrite Hd. split.
  - intros f -> Hv. cbn [mul_float]. by rewrite SFmul_one_r.
  - intros z -> Hz.
    destruct (float_of_int_exact z Hz) as (f & Hf & Hv & Hex).
    exists f. cbn [mul_float]. rewrite Hf. by rewrite SFmul_one_r.
Qed.

End PayExtras.

(** * The further properties on concrete runs *)

Lemma pay_failure_ends_the_run_witness :
  let entities := [ai_1] ++ ai_4 :: [ai_2] in
  let self := AIPayroll.__init__ entities in
  let run :=
    @process_payroll_with repr_integral unit metered_usage
      (@APIUnifier.callAPI repr_integral unit) module_globals
      (start entities tt) in
  Forall (λ x, is_ok (calculate_pay_with metered_usage self x) = true) [ai_1]
  ∧ Forall (λ x, prints (unique_id x) = true) [ai_1]
  ∧ calculate_pay_with metered_usage self ai_4
    = Raise (mk_exn TypeError
               "unsupported operand type(s) for *: 'NoneType' and 'float'")
  ∧ run.1 = Raise (mk_exn TypeError
                     "unsupported operand type(s) for *: 'NoneType' and 'float'")
  ∧ length (issued run.2) = 1%nat.
Proof.
  intros entities self run.
  assert (Hpre : Forall (λ x, is_ok (calculate_pay_with metered_usage self x)
                                = true) [ai_1]) by (repeat constructor).
  assert (Hids : Forall (λ x, prints (unique_id x) = true) [ai_1])
    by (repeat constructor).
  split; [exact Hpre|]. split; [exact Hids|]. split; [reflexivity|].
  destruct (@pay_failure_ends_the_run repr_integral unit metered_usage
              module_globals [ai_1] [ai_2] ai_4 _ tt Hpre Hids eq_refl)
    as (Hr & Hi & _).
  split; [exact Hr|]. fold entities in Hi. fold run in Hi.
  rewrite Hi. reflexivity.
Defined.

Lemma module_gateway_never_reaches_handler_witness :
  let w : World unit := start [ai_1; ai_2] tt in
  Forall (λ e, prints (unique_id e) = true) (ai_entities (self_of w))
  ∧ @process_payroll_with repr_integral unit metered_usage
      (@APIUnifier.callAPI repr_integral unit) module_globals w
    = @process_payroll_with repr_integral unit metered_usage
        (@APIUnifier.callAPI repr_integral unit) repaired_globals w.
Proof.
  intros w.
  assert (Hids : Forall (λ e, prints (unique_id e) = true)
                   (ai_entities (self_of w))) by (repeat constructor).
  split; [exact Hids|].
  exact (proj1 (@module_gateway_never_reaches_handler repr_integral unit
                  metered_usage module_globals repaired_globals w Hids)).
Defined.

Lemma normal_return_covers_every_entity_witness :
  let entities := [ai_1; ai_2] in
  let run :=
    @process_payroll_with repr_integral unit metered_usage
      (@APIUnifier.callAPI repr_integral unit) module_globals
      (start entities tt) in
  run.1 = Ok VNone
  ∧ length (log run.2) = length entities.
Proof.
  intros entities run.
  assert (Hret : run.1 = Ok VNone) by (vm_compute; reflexivity).
  split; [exact Hret|].
  exact (proj1 (proj2 (proj2
    (@normal_return_covers_every_entity repr_integral unit metered_usage
       (@APIUnifier.callAPI repr_integral unit) module_globals
       entities tt VNone Hret)))).
Defined.

Lemma callAPI_rejects_any_other_value_witness :
  let data : dict := {[ "action" := VNone ]} in
  data !! "action" = Some VNone
  ∧ VNone ≠ VStr "credit"
  ∧ @APIUnifier.callAPI repr_integral unit "bank_api" data tt =
      (Raise (mk_exn BankAPIUnifierException "Unrecognized action: None"), tt).
Proof.
  intros data. split; [reflexivity|]. split; [discriminate|].
  exact (proj1 (@callAPI_rejects_any_other_value repr_integral unit data VNone
                  tt eq_refl ltac:(discriminate)) eq_refl).
Defined.

Lemma calculate_pay_keeps_sign_witness :
  let self := AIPayroll.__init__ [ai_3] in
  metered_usage self ai_3 = Ok (VInt (-5))
  ∧ ∃ f, calculate_pay_with metered_usage self ai_3 = Ok (VFloat f)
         ∧ float_is_int f (-5).
Proof.
  intros self. split; [reflexivity|].
  apply (proj2 (calculate_pay_keeps_sign metered_usage self ai_3 (VInt (-5))
                  eq_refl) (-5) eq_refl).
  split; reflexivity.
Defined.

Lemma second_run_pays_again_witness :
  let entities := [ai_1; ai_2] in
  let self := AIPayroll.__init__ entities in
  let run1 :=
    @process_payroll_with repr_integral unit metered_usage
      (@APIUnifier.callAPI repr_integral unit) module_globals
      (start entities tt) in
  let run2 :=
    @process_payroll_with repr_integral unit metered_usage
      (@APIUnifier.callAPI repr_integral unit) module_globals run1.2 in
  Forall (λ e, is_ok (calculate_pay_with metered_usage self e) = true) entities
  ∧ Forall (λ e, prints (unique_id e) = true) entities
  ∧ run2.1 = Ok VNone
  ∧ length (issued run2.2) = 4%nat.
Proof.
  intros entities self run1 run2.
  assert (Hok : Forall (λ e, is_ok (calculate_pay_with metered_usage self e)
                               = true) entities) by (repeat constructor).
  assert (Hids : Forall (λ e, prints (unique_id e) = true) entities)
    by (repeat constructor).
  split; [exact Hok|]. split; [exact Hids|].
  destruct (@second_run_pays_again repr_integral unit metered_usage
              module_globals entities tt Hok Hids) as (Hr & Hi & _).
  split; [exact Hr|]. fold run1 in Hi. fold run2 in Hi.
  rewrite Hi. reflexivity.
Defined.

Lemma every_request_is_a_credit_witness :
  let entities := [ai_1; ai_2] in
  let run :=
    @process_payroll_with repr_integral unit metered_usage
      (@APIUnifier.callAPI repr_integral unit) module_globals
      (start entities tt) in
  let rq : Request :=
    ("bank_api",
     credit_payload ai_2 (VFloat (S754_zero false))) in
  rq ∈ issued run.2
  ∧ ∃ e, e ∈ entities
         ∧ rq.2 !! "unique_id" = Some (unique_id e)
         ∧ rq.2 !! "action" = Some (VStr "credit").
Proof.
  intros entities run rq.
  assert (Hrq : rq ∈ issued run.2) by (vm_compute; right; left).
  split; [exact Hrq|].
  destruct (@every_request_is_a_credit repr_integral unit metered_usage
              (@APIUnifier.callAPI repr_integral unit) module_globals
              entities tt rq Hrq)
    as (e & pay & He & _ & _ & Ha & Hu & _).
  exists e. split; [exact He|]. split; [exact Hu|exact Ha].
Defined.
